(** * AirVision: the traffic feed monitor (src/traffic_data/fetch_traffic_data.py)

    A shallow embedding of the script that fetches the vehicle-positions
    feed, validates every reading, estimates emissions, removes duplicates and
    writes three CSV stores, together with the properties its specification
    states about it.

    Python's [float] is IEEE 754 binary64, modelled with Rocq's primitive
    floats; the built-in [round(x, ndigits)] is modelled exactly on top of
    [SpecFloat], and so is the rounding of a [numpy.float64], which the
    totals of the summary go through. *)

From Stdlib Require Import ZArith List Bool Lia String Ascii.
From Stdlib Require Import Floats.
Import ListNotations.

Local Open Scope Z_scope.

(** ** Python floats *)

Module PyFloat.

(** [round_half_even_div a d]: the integer nearest to [a / d] (for [0 < d]),
    ties going to the even neighbour. *)
Definition round_half_even_div (a d : Z) : Z :=
  let q := a / d in
  let r := a mod d in
  match 2 * r ?= d with
  | Lt => q
  | Gt => q + 1
  | Eq => if Z.even q then q else q + 1
  end.

(** [scaled_nearest m e k]: the integer nearest to [m * 2^e * 10^k], the
    decimal digits [dtoa] (mode 3) produces for the magnitude [m * 2^e]
    with [k] digits after the point. *)
Definition scaled_nearest (m : positive) (e : Z) (k : Z) : Z :=
  if 0 <=? e then Z.pos m * 2 ^ e * 10 ^ k
  else round_half_even_div (Z.pos m * 10 ^ k) (2 ^ (- e)).

(** [decimal_to_float s n k]: the binary64 value nearest to
    [(-1)^s * n / 10^k], what [strtod] returns for the decimal string. *)
Definition decimal_to_float (s : bool) (n : Z) (k : Z) : float :=
  match n with
  | Z0 => SF2Prim (S754_zero s)
  | _ =>
      let '(q, e, l) := SFdiv_core_binary prec emax n 0 (10 ^ k) 0 in
      SF2Prim (binary_round_aux prec emax s q e l)
  end.

(** The built-in [round(x, ndigits)] for a float [x] and [0 <= ndigits]:
    non-finite values and zeros round to themselves; beyond
    [NDIGITS_MAX = 323] digits the value is returned unchanged; otherwise
    the value is rounded correctly to a decimal with [ndigits] digits after
    the point (ties to even) and converted back. *)
Definition round (x : float) (ndigits : Z) : float :=
  if 323 <? ndigits then x
  else
    match Prim2SF x with
    | S754_finite s m e =>
        decimal_to_float s (scaled_nearest m e ndigits) ndigits
    | _ => x
    end.

End PyFloat.

(** ** NumPy floats

    The sum of a column of the data frame is a [numpy.float64]; [round] on
    it is NumPy's, not the built-in: multiply by the power of ten, round to
    the nearest integer, divide. *)

Module NumPy.

(** [numpy.rint]: the nearest integer, ties going to the even one, with the
    sign of the argument; a value without fractional bits, an infinity and
    NaN are returned as they are. *)
Definition rint (x : float) : float :=
  match Prim2SF x with
  | S754_finite s m e =>
      if 0 <=? e then x
      else PyFloat.decimal_to_float s
             (PyFloat.round_half_even_div (Z.pos m) (2 ^ (- e))) 0
  | _ => x
  end.

(** The double nearest [10^n] (exact up to [n = 22]). *)
Definition power_of_ten (n : Z) : float :=
  PyFloat.decimal_to_float false (10 ^ n) 0.

(** [round(x, ndigits)] for a [numpy.float64] [x]. *)
Definition round (x : float) (ndigits : Z) : float :=
  if 0 <=? ndigits
  then (rint (x * power_of_ten ndigits) / power_of_ten ndigits)%float
  else (rint (x / power_of_ten (- ndigits)) * power_of_ten (- ndigits))%float.

End NumPy.

(** ** Configuration (the CONFIG block of the script) *)

Definition EMISSION_FACTORS : list (string * float) :=
  [("CO", 6.0); ("NOx", 8.0); ("PM2.5", 0.5); ("CO2", 1100.0)]%string%float.

Definition SPEED_MAX_M_S : float := 30.0%float.
Definition LAT_MIN : float := 28.5%float.
Definition LAT_MAX : float := 0x1.ccccccccccccdp+4%float.  (* the literal 28.8 *)
Definition LON_MIN : float := 77.0%float.
Definition LON_MAX : float := 0x1.359999999999ap+6%float.  (* the literal 77.4 *)

(** The literal 3.6 of the distance formula. *)
Definition lit_3_6 : float := 0x1.ccccccccccccdp+1%float.

Definition validate_location (lat lon : float) : bool :=
  ((LAT_MIN <=? lat)%float && (lat <=? LAT_MAX)%float)
  && ((LON_MIN <=? lon)%float && (lon <=? LON_MAX)%float).

Definition validate_speed (speed : float) : bool :=
  (0.0 <=? speed)%float && (speed <=? SPEED_MAX_M_S)%float.

(** ** The decoded feed

    The entities of a GTFS-realtime [FeedMessage] as the script reads them:
    [HasField] is presence of an optional field, a [uint64] is an [N], and a
    [float] field is read as a Python float. *)

Module Feed.

Record Position := mkPosition {
  latitude : float;
  longitude : float;
  speed : option float
}.

(** [VehicleDescriptor]: the identification of the vehicle; its [id] is
    the vehicle-level identifier of the feed (an unset string reads as
    empty). *)
Record VehicleDescriptor := mkDescriptor {
  descriptor_id : string
}.

(** [VehiclePosition]; its field [vehicle] is named [descriptor] here, the
    name [vehicle] being taken by the field of the entity. *)
Record VehiclePosition := mkVehicle {
  position : option Position;
  timestamp : option N;
  descriptor : option VehicleDescriptor
}.

(** [getattr(v, "id", None)] on a [VehiclePosition].  The message declares
    the fields trip, vehicle, position, current_stop_sequence, stop_id,
    current_status, timestamp, congestion_level and occupancy_status; it has
    no attribute [id] (the identifier is [v.vehicle.id]), so the lookup
    yields the default. *)
Definition id_attr (v : VehiclePosition) : option string := None.

Record FeedEntity := mkEntity {
  id : string;
  vehicle : option VehiclePosition
}.

Definition HasField_vehicle (e : FeedEntity) : bool :=
  match vehicle e with Some _ => true | None => false end.

(** Reading a message field that is not set yields the empty message. *)
Definition get_vehicle (e : FeedEntity) : VehiclePosition :=
  match vehicle e with
  | Some v => v
  | None => mkVehicle None None None
  end.

(** [getattr(v.position, "speed", 0.0)]: an unset [speed] reads as 0.0. *)
Definition get_speed (p : Position) : float :=
  match speed p with Some s => s | None => 0.0%float end.

End Feed.

(** ** Exceptions and [datetime] *)

Inductive exn : Type :=
  | ValueError
  | OSError
  | OverflowError.

Module DateTime.

(** 9999-12-31T23:59:59Z and 0001-01-01T00:00:00Z in epoch seconds. *)
Definition MAX_EPOCH : Z := 253402300799.
Definition MIN_EPOCH : Z := -62135596800.
(** The last second for which the C library's [gmtime] has a year that
    fits its [int] field (64-bit glibc). *)
Definition GMTIME_MAX : Z := 67768036191676800 - 1.
(** The largest [time_t]. *)
Definition TIME_T_MAX : Z := 2 ^ 63 - 1.

(** [datetime.fromtimestamp(t, timezone.utc)] for a non-negative integer
    [t]: the instant itself (epoch seconds) when the year is at most 9999;
    [ValueError] when the year is out of range; [OSError] when [gmtime]
    fails; [OverflowError] when [t] does not fit [time_t]. *)
Definition fromtimestamp (t : N) : exn + Z :=
  let t := Z.of_N t in
  if TIME_T_MAX <? t then inl OverflowError
  else if GMTIME_MAX <? t then inl OSError
  else if MAX_EPOCH <? t then inl ValueError
  else inr t.

(** An aware local time, as [isoformat()] renders it: the wall-clock
    reading (seconds since 1970-01-01T00:00:00 on that clock) with the
    zone's offset from UTC.  The rendering is injective in the pair. *)
Record Local := mkLocal { wall : Z; offset : Z }.

Definition Local_eqb (a b : Local) : bool :=
  (wall a =? wall b) && (offset a =? offset b).

(** [ts.astimezone()] with the system zone, whose offset from UTC at the
    instant [ts] is [utcoffset ts]: [OverflowError] when the wall-clock
    reading leaves the years 1..9999. *)
Definition astimezone (utcoffset : Z -> Z) (ts : Z) : exn + Local :=
  let w := ts + utcoffset ts in
  if (w <? MIN_EPOCH) || (MAX_EPOCH <? w) then inl OverflowError
  else inr (mkLocal w (utcoffset ts)).

End DateTime.

(** ** Rows of the data frame *)

Module Row.

Record t := mk {
  vehicle_id : string;
  timestamp : DateTime.Local;
  latitude : float;
  longitude : float;
  speed_m_s : float;
  (** the pollutant columns, in the order of [EMISSION_FACTORS] *)
  emissions : list (string * float)
}.

(** The column named [p] of a row. *)
Fixpoint lookup (p : string) (cols : list (string * float)) : option float :=
  match cols with
  | [] => None
  | (q, x) :: rest => if String.eqb p q then Some x else lookup p rest
  end.

Definition pollutant (p : string) (r : t) : option float := lookup p (emissions r).

(** The subset [vehicle_id, timestamp] that [drop_duplicates] compares. *)
Definition key (r : t) : string * DateTime.Local := (vehicle_id r, timestamp r).

Definition key_eqb (a b : string * DateTime.Local) : bool :=
  String.eqb (fst a) (fst b) && DateTime.Local_eqb (snd a) (snd b).

End Row.

(** ** process_vehicles *)

(** Python's [a or b] on strings: [a] when it is non-empty, else [b]. *)
Definition str_or (a b : string) : string :=
  if String.eqb a "" then b else a.

(** [a or b] when [a] is [None] or a string. *)
Definition opt_or (a : option string) (b : string) : string :=
  match a with
  | Some s => str_or s b
  | None => b
  end.

(** [getattr(v, "id", None) or entity.id or "unknown"] *)
Definition resolve_vehicle_id (entity : Feed.FeedEntity) : string :=
  str_or (opt_or (Feed.id_attr (Feed.get_vehicle entity)) (Feed.id entity)) "unknown".

(** [(speed * 3.6) / 60.0] *)
Definition distance_km (speed : float) : float := ((speed * lit_3_6) / 60.0)%float.

(** [{p: round(f * distance_km, 2) for p, f in EMISSION_FACTORS.items()}] *)
Definition estimate_emissions (distance : float) : list (string * float) :=
  map (fun pf => (fst pf, PyFloat.round (snd pf * distance)%float 2)) EMISSION_FACTORS.

(** The four places where the loop body counts an entity as skipped. *)
Inductive skip_site : Type :=
  | MissingField
  | BadLocation
  | BadSpeed
  | BadTimestamp.

(** What one pass through the loop body does with an entity. *)
Inductive step : Type :=
  | Skip (site : skip_site)
  | Keep (row : Row.t)
  | Throw (e : exn).

Section ProcessVehicles.

(** The offset from UTC of the system's local zone at a given instant. *)
Variable utcoffset : Z -> Z.

(** The body of the loop of [process_vehicles], for one entity. *)
Definition process_entity (entity : Feed.FeedEntity) : step :=
  let v := Feed.get_vehicle entity in
  match Feed.position v, Feed.timestamp v with
  | Some pos, Some t =>
      let lat := Feed.latitude pos in
      let lon := Feed.longitude pos in
      let speed := Feed.get_speed pos in
      if negb (validate_location lat lon) then Skip BadLocation
      else if negb (validate_speed speed) then Skip BadSpeed
      else
        match DateTime.fromtimestamp t with
        | inl ValueError | inl OSError => Skip BadTimestamp
        | inl e => Throw e
        | inr ts =>
            let vehicle_id := resolve_vehicle_id entity in
            let emissions := estimate_emissions (distance_km speed) in
            match DateTime.astimezone utcoffset ts with
            | inl e => Throw e
            | inr local =>
                Keep (Row.mk vehicle_id local
                        (PyFloat.round lat 6) (PyFloat.round lon 6)
                        (PyFloat.round speed 2) emissions)
            end
        end
  | _, _ => Skip MissingField
  end.

(** The [for entity in entities] loop, with its two accumulators. *)
Fixpoint process_loop (entities : list Feed.FeedEntity)
    (rows : list Row.t) (skipped : nat) : exn + (list Row.t * nat) :=
  match entities with
  | [] => inr (rows, skipped)
  | entity :: rest =>
      match process_entity entity with
      | Skip _ => process_loop rest rows (S skipped)
      | Keep row => process_loop rest (rows ++ [row]) skipped
      | Throw e => inl e
      end
  end.

(** [df.drop_duplicates(subset=["vehicle_id", "timestamp"], keep="first")]:
    a row is dropped when an earlier row has its key. *)
Fixpoint drop_duplicates_from (seen : list (string * DateTime.Local))
    (rows : list Row.t) : list Row.t :=
  match rows with
  | [] => []
  | r :: rest =>
      if existsb (Row.key_eqb (Row.key r)) seen
      then drop_duplicates_from seen rest
      else r :: drop_duplicates_from (Row.key r :: seen) rest
  end.

Definition drop_duplicates (rows : list Row.t) : list Row.t :=
  drop_duplicates_from [] rows.

End ProcessVehicles.

(** ** The world outside the process and the state the script acts on *)

Inductive HttpOutcome : Type :=
  | Response (status_code : Z) (content : list Byte.byte)
  | Timeout         (* requests.Timeout *)
  | RequestError.   (* any other requests.RequestException *)

(** [r.raise_for_status()] raises [HTTPError] for a 4xx or 5xx status. *)
Definition raise_for_status_raises (status_code : Z) : bool :=
  (400 <=? status_code) && (status_code <? 600).

Record Summary := mkSummary {
  summary_timestamp : string;
  summary_vehicle_count : nat;
  CO_total_g : float;
  NOx_total_g : float;
  PM2_5_total_g : float;
  CO2_total_g : float
}.

Inductive CountLine : Type :=
  | CountHeader
  | CountRow (timestamp : string) (vehicle_count : nat).

Inductive SummaryLine : Type :=
  | SummaryHeader
  | SummaryRow (s : Summary).

Inductive LogMsg : Type :=
  | ApiRequestSuccessful (attempt : nat)
  | TimeoutOnAttempt (attempt max_retries : nat)
  | MaxRetriesExceeded
  | ApiRequestFailed
  | FailedToParseProtobuf
  | NoVehiclesFound
  | FetchedVehicles (n : nat)
  | SkippedInvalid (skipped : nat)
  | ProcessingComplete (n : nat)
  | SavedRaw (n : nat)
  | FailedToSaveRaw
  | LoggedVehicleCount (vehicle_count : nat)
  | FailedToLogVehicleCount
  | SavedPollutionSummary
  | SummaryIs (s : Summary)
  | FailedToSavePollutionSummary
  | NoValidVehicleData
  | AllOperationsCompleted
  | UnexpectedError (e : exn).

Inductive Level : Type := INFO | WARNING | ERROR.

(** What the process does that can be observed from outside, in order. *)
Inductive Event : Type :=
  | HttpGet (attempt : nat)    (* one [requests.get] *)
  | Log (level : Level) (msg : LogMsg)
  | WriteRaw                   (* [df.to_csv(OUT_RAW)] is attempted *)
  | AppendVehicleCount         (* [open(OUT_VEHICLE_COUNT, "a")] is attempted *)
  | WritePollutionSummary.     (* [to_csv(OUT_POLLUTION_SUMMARY)] is attempted *)

(** What the script does not decide: the network, the decoder, the clock,
    the local zone, whether each store can be written, and how the data frame
    sums a column.  A write that fails is one that fails on opening its file
    (a permission error, say): it leaves the store as it was. *)
Record World := mkWorld {
  http_get : nat -> HttpOutcome;
  ParseFromString : list Byte.byte -> option (list Feed.FeedEntity);
  utcoffset : Z -> Z;
  now : nat -> string;
  raw_write_ok : bool;
  count_append_ok : bool;
  summary_write_ok : bool;
  column_sum : list float -> float
}.

(** The three stores ([None]: the file does not exist), the trace of the
    run and how often the clock was read. *)
Record Machine := mkMachine {
  raw_store : option (list Row.t);
  vehicle_count_store : option (list CountLine);
  pollution_summary_store : option (list SummaryLine);
  trace : list Event;
  clock_reads : nat
}.

(** The stores alone. *)
Definition stores (m : Machine) :
  option (list Row.t) * option (list CountLine) * option (list SummaryLine) :=
  (raw_store m, vehicle_count_store m, pollution_summary_store m).

(** ** A monad for the script: state, [sys.exit] and exceptions *)

Inductive outcome (A : Type) : Type :=
  | Done (a : A)
  | SystemExit (code : Z)
  | Raised (e : exn).

Arguments Done {A} a.
Arguments SystemExit {A} code.
Arguments Raised {A} e.

Definition Run (A : Type) : Type := Machine -> outcome A * Machine.

Definition ret {A} (a : A) : Run A := fun m => (Done a, m).

Definition bind {A B} (c : Run A) (k : A -> Run B) : Run B :=
  fun m =>
    match c m with
    | (Done a, m') => k a m'
    | (SystemExit code, m') => (SystemExit code, m')
    | (Raised e, m') => (Raised e, m')
    end.

Declare Scope run_scope.
Delimit Scope run_scope with run.
Notation "x <- c ;; k" := (bind c (fun x => k))
  (at level 61, c at next level, right associativity) : run_scope.
Notation "c ;; k" := (bind c (fun _ => k))
  (at level 61, right associativity) : run_scope.

Definition sys_exit {A} (code : Z) : Run A := fun m => (SystemExit code, m).

Definition raise {A} (e : exn) : Run A := fun m => (Raised e, m).

(** [try: body except Exception as e: handler]; [SystemExit] is not an
    [Exception] and passes through. *)
Definition try_except {A} (body : Run A) (handler : exn -> Run A) : Run A :=
  fun m =>
    match body m with
    | (Raised e, m') => handler e m'
    | r => r
    end.

Definition emit (ev : Event) : Run unit :=
  fun m => (Done tt, mkMachine (raw_store m) (vehicle_count_store m)
                       (pollution_summary_store m) (trace m ++ [ev]) (clock_reads m)).

Definition log (level : Level) (msg : LogMsg) : Run unit := emit (Log level msg).

Definition set_raw_store (rows : list Row.t) : Run unit :=
  fun m => (Done tt, mkMachine (Some rows) (vehicle_count_store m)
                       (pollution_summary_store m) (trace m) (clock_reads m)).

Definition set_vehicle_count_store (lines : list CountLine) : Run unit :=
  fun m => (Done tt, mkMachine (raw_store m) (Some lines)
                       (pollution_summary_store m) (trace m) (clock_reads m)).

Definition set_pollution_summary_store (lines : list SummaryLine) : Run unit :=
  fun m => (Done tt, mkMachine (raw_store m) (vehicle_count_store m)
                       (Some lines) (trace m) (clock_reads m)).

Definition get {A} (f : Machine -> A) : Run A := fun m => (Done (f m), m).

(** The exit status of the process once [main] is over. *)
Definition exit_code {A} (o : outcome A) : Z :=
  match o with
  | Done _ => 0
  | SystemExit code => code
  | Raised _ => 1
  end.

(** ** The script *)

Section Script.

Variable w : World.

Local Open Scope run_scope.

Definition max_retries : nat := 3.

(** [datetime.now().isoformat()] *)
Definition datetime_now : Run string :=
  fun m => (Done (now w (clock_reads m)),
            mkMachine (raw_store m) (vehicle_count_store m)
              (pollution_summary_store m) (trace m) (S (clock_reads m))).

(** The retry loop of [fetch_traffic_data] over the attempts still to make.
    Its value is the content of [r] once the loop is left; [None] when the
    loop ends with [r] unbound. *)
Fixpoint fetch_attempts (attempts : list nat) : Run (option (list Byte.byte)) :=
  match attempts with
  | [] => ret None
  | attempt :: rest =>
      emit (HttpGet attempt) ;;
      match http_get w attempt with
      | Response status_code content =>
          if raise_for_status_raises status_code
          then log ERROR ApiRequestFailed ;; sys_exit 1
          else log INFO (ApiRequestSuccessful (attempt + 1)) ;; ret (Some content)
      | Timeout =>
          log WARNING (TimeoutOnAttempt (attempt + 1) max_retries) ;;
          if Nat.eqb attempt (max_retries - 1)
          then log ERROR MaxRetriesExceeded ;; sys_exit 1
          else fetch_attempts rest
      | RequestError => log ERROR ApiRequestFailed ;; sys_exit 1
      end
  end.

Definition fetch_traffic_data : Run (list Feed.FeedEntity) :=
  r <- fetch_attempts (seq 0 max_retries) ;;
  feed <- match r with
          | None => log ERROR FailedToParseProtobuf ;; sys_exit 1
          | Some content =>
              match ParseFromString w content with
              | None => log ERROR FailedToParseProtobuf ;; sys_exit 1
              | Some feed => ret feed
              end
          end ;;
  let entities := filter Feed.HasField_vehicle feed in
  match entities with
  | [] => log ERROR NoVehiclesFound ;; sys_exit 1
  | _ :: _ => log INFO (FetchedVehicles (List.length entities)) ;; ret entities
  end.

Definition process_vehicles (entities : list Feed.FeedEntity) : Run (list Row.t) :=
  match process_loop (utcoffset w) entities [] 0 with
  | inl e => raise e
  | inr (rows, skipped) =>
      (if Nat.ltb 0 skipped then log INFO (SkippedInvalid skipped) else ret tt) ;;
      let df := drop_duplicates rows in
      log INFO (ProcessingComplete (List.length df)) ;;
      ret df
  end.

Definition save_raw_data (df : list Row.t) : Run unit :=
  emit WriteRaw ;;
  if raw_write_ok w
  then set_raw_store df ;; log INFO (SavedRaw (List.length df))
  else log ERROR FailedToSaveRaw ;; sys_exit 1.

(** [df["vehicle_id"].nunique()] *)
Definition nunique_vehicle_id (df : list Row.t) : nat :=
  List.length (nodup string_dec (map Row.vehicle_id df)).

Definition log_vehicle_count (df : list Row.t) : Run unit :=
  let vehicle_count := nunique_vehicle_id df in
  file <- get vehicle_count_store ;;
  emit AppendVehicleCount ;;
  if count_append_ok w
  then
    t <- datetime_now ;;
    set_vehicle_count_store
      (match file with
       | None => [CountHeader; CountRow t vehicle_count]
       | Some lines => lines ++ [CountRow t vehicle_count]
       end) ;;
    log INFO (LoggedVehicleCount vehicle_count)
  else log ERROR FailedToLogVehicleCount.

(** The cells of the column [p]; a missing cell is skipped by [sum]. *)
Definition column (p : string) (df : list Row.t) : list float :=
  flat_map (fun r => match Row.pollutant p r with Some x => [x] | None => [] end) df.

Definition save_pollution_summary (df : list Row.t) : Run unit :=
  let total p := column_sum w (column p df) in
  t <- datetime_now ;;
  let summary :=
    mkSummary t (nunique_vehicle_id df)
      (NumPy.round (total "CO"%string) 2) (NumPy.round (total "NOx"%string) 2)
      (NumPy.round (total "PM2.5"%string) 2) (NumPy.round (total "CO2"%string) 2) in
  file <- get pollution_summary_store ;;
  emit WritePollutionSummary ;;
  if summary_write_ok w
  then
    set_pollution_summary_store
      (match file with
       | None => [SummaryHeader; SummaryRow summary]
       | Some lines => lines ++ [SummaryRow summary]
       end) ;;
    log INFO SavedPollutionSummary ;;
    log INFO (SummaryIs summary)
  else log ERROR FailedToSavePollutionSummary.

Definition main : Run unit :=
  try_except
    (entities <- fetch_traffic_data ;;
     df <- process_vehicles entities ;;
     match df with
     | [] => log ERROR NoValidVehicleData ;; sys_exit 1
     | _ :: _ =>
         save_raw_data df ;;
         log_vehicle_count df ;;
         save_pollution_summary df ;;
         log INFO AllOperationsCompleted
     end)
    (fun e => log ERROR (UnexpectedError e) ;; sys_exit 1).

End Script.

(** ** Notions the properties are stated with *)

(** [forall_block P k lo]: [P] holds on the [2^k] integers from [lo] on. *)
Fixpoint forall_block (P : Z -> bool) (k : nat) (lo : Z) : bool :=
  match k with
  | O => P lo
  | S k' => forall_block P k' lo && forall_block P k' (lo + 2 ^ Z.of_nat k')
  end.

(** Every decimal [n / 10^k] with [lo <= n <= hi] converts to a float
    between [flo] and [fhi]. *)
Definition decimals_within (k lo hi : Z) (flo fhi : float) (n : Z) : bool :=
  implb ((lo <=? n) && (n <=? hi))
        ((flo <=? PyFloat.decimal_to_float false n k)%float
         && (PyFloat.decimal_to_float false n k <=? fhi)%float).

(** The rows the loop appends, in order. *)
Definition kept (off : Z -> Z) (entities : list Feed.FeedEntity) : list Row.t :=
  flat_map (fun entity =>
              match process_entity off entity with Keep row => [row] | _ => [] end)
           entities.

(** How many entities the loop counts as skipped. *)
Definition dropped (off : Z -> Z) (entities : list Feed.FeedEntity) : nat :=
  List.length (filter (fun entity =>
                    match process_entity off entity with Skip _ => true | _ => false end)
                 entities).

(** The exception of the first entity whose processing raises, if any. *)
Fixpoint first_throw (off : Z -> Z) (entities : list Feed.FeedEntity) : option exn :=
  match entities with
  | [] => None
  | entity :: rest =>
      match process_entity off entity with
      | Throw e => Some e
      | _ => first_throw off rest
      end
  end.

(** What sends an entity to each of the four places where it is counted as
    skipped: the check of that place fails and the checks before it pass. *)
Definition skipped_at (entity : Feed.FeedEntity) (site : skip_site) : Prop :=
  let v := Feed.get_vehicle entity in
  match site with
  | MissingField => Feed.position v = None \/ Feed.timestamp v = None
  | BadLocation =>
      exists pos t, Feed.position v = Some pos /\ Feed.timestamp v = Some t
        /\ validate_location (Feed.latitude pos) (Feed.longitude pos) = false
  | BadSpeed =>
      exists pos t, Feed.position v = Some pos /\ Feed.timestamp v = Some t
        /\ validate_location (Feed.latitude pos) (Feed.longitude pos) = true
        /\ validate_speed (Feed.get_speed pos) = false
  | BadTimestamp =>
      exists pos t, Feed.position v = Some pos /\ Feed.timestamp v = Some t
        /\ validate_location (Feed.latitude pos) (Feed.longitude pos) = true
        /\ validate_speed (Feed.get_speed pos) = true
        /\ (DateTime.fromtimestamp t = inl ValueError
            \/ DateTime.fromtimestamp t = inl OSError)
  end.

(** A timestamp the loop body handles without an uncaught exception: it fits
    [time_t] and, when it converts, its local time is within the years
    1..9999. *)
Definition timestamp_handled (off : Z -> Z) (t : N) : Prop :=
  Z.of_N t <= DateTime.TIME_T_MAX
  /\ (Z.of_N t <= DateTime.MAX_EPOCH ->
      DateTime.MIN_EPOCH <= Z.of_N t + off (Z.of_N t) <= DateTime.MAX_EPOCH).

(** The row built for an entity, from the values the loop body reads. *)
Definition row_of (entity : Feed.FeedEntity) (pos : Feed.Position)
    (local : DateTime.Local) : Row.t :=
  Row.mk (resolve_vehicle_id entity) local
    (PyFloat.round (Feed.latitude pos) 6) (PyFloat.round (Feed.longitude pos) 6)
    (PyFloat.round (Feed.get_speed pos) 2)
    (estimate_emissions (distance_km (Feed.get_speed pos))).

(** [subseq l l']: [l] is [l'] with some elements left out, order kept. *)
Inductive subseq {A : Type} : list A -> list A -> Prop :=
  | subseq_nil : subseq [] []
  | subseq_skip : forall x l l', subseq l l' -> subseq l (x :: l')
  | subseq_keep : forall x l l', subseq l l' -> subseq (x :: l) (x :: l').

(** A machine after some more events, its stores and clock untouched. *)
Definition record (m : Machine) (evs : list Event) : Machine :=
  mkMachine (raw_store m) (vehicle_count_store m) (pollution_summary_store m)
    (trace m ++ evs) (clock_reads m).

(** The attempts of [requests.get] recorded in a piece of trace. *)
Definition http_gets (evs : list Event) : list nat :=
  flat_map (fun ev => match ev with HttpGet attempt => [attempt] | _ => [] end) evs.

(** No store is touched in a piece of trace. *)
Definition no_writes (evs : list Event) : Prop :=
  ~ In WriteRaw evs /\ ~ In AppendVehicleCount evs /\ ~ In WritePollutionSummary evs.

(** The payload of an attempt that succeeds. *)
Definition payload_of (out : HttpOutcome) : option (list Byte.byte) :=
  match out with
  | Response status_code content =>
      if raise_for_status_raises status_code then None else Some content
  | _ => None
  end.

(** An attempt that fails otherwise than by a timeout. *)
Definition request_failed (out : HttpOutcome) : bool :=
  match out with
  | Response status_code _ => raise_for_status_raises status_code
  | RequestError => true
  | Timeout => false
  end.

(** What the fetch comes to, read off the outcomes of the three attempts:
    the payload of the first attempt that does not time out, or one of the
    two kinds of fetch error. *)
Inductive FetchResult : Type :=
  | Payload (content : list Byte.byte)
  | FetchTimeout
  | FetchRequestFailed.

Definition attempt_result (out : HttpOutcome) : option FetchResult :=
  match out with
  | Response status_code content =>
      Some (if raise_for_status_raises status_code then FetchRequestFailed
            else Payload content)
  | RequestError => Some FetchRequestFailed
  | Timeout => None
  end.

Definition fetch_result (w : World) : FetchResult :=
  match attempt_result (http_get w 0%nat) with
  | Some r => r
  | None =>
      match attempt_result (http_get w 1%nat) with
      | Some r => r
      | None =>
          match attempt_result (http_get w 2%nat) with
          | Some r => r
          | None => FetchTimeout
          end
      end
  end.

(** Where a run ends, read off the world alone: the stage that stops it, or
    the data frame it persists. *)
Inductive Ending : Type :=
  | EndsFetchFailed
  | EndsDecodeFailed       (* the payload does not parse *)
  | EndsNoVehicles         (* no entity of the feed has a vehicle *)
  | EndsUnexpected (e : exn)   (* an exception reaches the handler of [main] *)
  | EndsNoValidRecords
  | EndsRawWriteFailed
  | EndsCompleted (df : list Row.t).

Definition ending (w : World) : Ending :=
  match fetch_result w with
  | Payload content =>
      match ParseFromString w content with
      | None => EndsDecodeFailed
      | Some feed =>
          match filter Feed.HasField_vehicle feed with
          | [] => EndsNoVehicles
          | entity :: rest =>
              match process_loop (utcoffset w) (entity :: rest) [] 0 with
              | inl e => EndsUnexpected e
              | inr (rows, _) =>
                  match drop_duplicates rows with
                  | [] => EndsNoValidRecords
                  | r :: df =>
                      if raw_write_ok w then EndsCompleted (r :: df)
                      else EndsRawWriteFailed
                  end
              end
          end
      end
  | FetchTimeout | FetchRequestFailed => EndsFetchFailed
  end.

(** The fatal conditions of a run. *)
Definition fetch_failed (w : World) : Prop := ending w = EndsFetchFailed.
Definition decode_failed (w : World) : Prop :=
  ending w = EndsDecodeFailed \/ ending w = EndsNoVehicles.
Definition unexpected_error (w : World) : Prop := exists e, ending w = EndsUnexpected e.
Definition no_valid_records (w : World) : Prop := ending w = EndsNoValidRecords.
Definition raw_write_failed (w : World) : Prop := ending w = EndsRawWriteFailed.

(** The line a store ends with after an append, the header first when the
    store did not exist. *)
Definition appended {A : Type} (header : A) (store : option (list A)) (line : A) : list A :=
  match store with
  | None => [header; line]
  | Some lines => lines ++ [line]
  end.

(** The same world with other outcomes for the two appends. *)
Definition with_appends (w : World) (count summary : bool) : World :=
  mkWorld (http_get w) (ParseFromString w) (utcoffset w) (now w)
    (raw_write_ok w) count summary (column_sum w).

(** ** More notions: floats, traces and runs *)

(** A value that is not NaN and not below zero: a zero of either sign, a
    positive finite value or the positive infinity. *)
Definition nonneg_sf (x : spec_float) : Prop :=
  match x with
  | S754_zero _ | S754_finite false _ _ | S754_infinity false => True
  | _ => False
  end.

(** The value of a float that is zero or finite, in units of [2^-1074] (the
    smallest positive double), an integer; [None] for an infinity or NaN. *)
Definition scaled_value (x : spec_float) : option Z :=
  match x with
  | S754_zero _ => Some 0
  | S754_finite s m e => Some ((if s then -1 else 1) * (Z.pos m * 2 ^ (e + 1074)))
  | _ => None
  end.

(** An entity whose processing raises: its fields are present and within the
    bounds, and its timestamp is not one the loop body handles. *)
Definition raises_at (off : Z -> Z) (entity : Feed.FeedEntity) : Prop :=
  let v := Feed.get_vehicle entity in
  exists pos t,
    Feed.position v = Some pos /\ Feed.timestamp v = Some t
    /\ validate_location (Feed.latitude pos) (Feed.longitude pos) = true
    /\ validate_speed (Feed.get_speed pos) = true
    /\ ~ timestamp_handled off t.

(** The summary of a run over the frame [df], stamped [t]. *)
Definition summary_of (w : World) (df : list Row.t) (t : string) : Summary :=
  mkSummary t (nunique_vehicle_id df)
    (NumPy.round (column_sum w (column "CO" df)) 2)
    (NumPy.round (column_sum w (column "NOx" df)) 2)
    (NumPy.round (column_sum w (column "PM2.5" df)) 2)
    (NumPy.round (column_sum w (column "CO2" df)) 2).

(** The events of the three persistence steps, from the write of the raw
    store on, when that write succeeds; [t] stamps the summary. *)
Definition persist_events (w : World) (df : list Row.t) (t : string) : list Event :=
  [WriteRaw; Log INFO (SavedRaw (List.length df));
   AppendVehicleCount;
   if count_append_ok w then Log INFO (LoggedVehicleCount (nunique_vehicle_id df))
   else Log ERROR FailedToLogVehicleCount;
   WritePollutionSummary]
  ++ (if summary_write_ok w
      then [Log INFO SavedPollutionSummary; Log INFO (SummaryIs (summary_of w df t))]
      else [Log ERROR FailedToSavePollutionSummary])
  ++ [Log INFO AllOperationsCompleted].

(** The last line a run logs, read off where it ends. *)
Definition final_log (w : World) : Event :=
  match ending w with
  | EndsFetchFailed =>
      Log ERROR (match fetch_result w with
                 | FetchTimeout => MaxRetriesExceeded
                 | _ => ApiRequestFailed
                 end)
  | EndsDecodeFailed => Log ERROR FailedToParseProtobuf
  | EndsNoVehicles => Log ERROR NoVehiclesFound
  | EndsUnexpected e => Log ERROR (UnexpectedError e)
  | EndsNoValidRecords => Log ERROR NoValidVehicleData
  | EndsRawWriteFailed => Log ERROR FailedToSaveRaw
  | EndsCompleted _ => Log INFO AllOperationsCompleted
  end.

(** The script run once per world of a list, each run on the stores and the
    clock the one before left. *)
Definition runs (ws : list World) (m : Machine) : Machine :=
  fold_left (fun m w => snd (main w m)) ws m.

(** A run that reaches the two appends. *)
Definition completes (w : World) : bool :=
  match ending w with EndsCompleted _ => true | _ => false end.

(** A series file as the script leaves it: the header on its first line and
    nowhere else. *)
Definition series_ok {A : Type} (header : A) (store : option (list A)) : Prop :=
  match store with
  | None => True
  | Some lines => exists rows, lines = header :: rows /\ ~ In header rows
  end.

(** The lines of a store that are not its header. *)
Definition row_count {A : Type} (store : option (list A)) : nat :=
  match store with
  | None => 0
  | Some lines => List.length lines - 1
  end.

(** ** Sample inputs *)

(** A position in the service area (the doubles nearest 28.65 and 77.3). *)
Definition sample_position (speed : option float) : Feed.Position :=
  Feed.mkPosition 0x1.ca66666666666p+4%float 0x1.3533333333333p+6%float speed.

Definition reading (id : string) (pos : option Feed.Position) (t : option N) :
    Feed.FeedEntity :=
  Feed.mkEntity id (Some (Feed.mkVehicle pos t None)).

(** A reading at 10 m/s, stamped 2023-11-14T22:13:20Z. *)
Definition valid_reading : Feed.FeedEntity :=
  reading "V1" (Some (sample_position (Some 10.0%float))) (Some 1700000000%N).

(** The same reading with a timestamp that does not fit [time_t]. *)
Definition overflowing_reading : Feed.FeedEntity :=
  reading "V2" (Some (sample_position (Some 10.0%float))) (Some (2 ^ 63)%N).

Definition reading_without_timestamp : Feed.FeedEntity :=
  reading "V3" (Some (sample_position (Some 10.0%float))) None.

Definition reading_out_of_area : Feed.FeedEntity :=
  reading "V4"
    (Some (Feed.mkPosition 40.0%float 0x1.3533333333333p+6%float (Some 10.0%float)))
    (Some 1700000000%N).

(** A reading at 10.0078125 m/s, a speed with more than two decimals. *)
Definition precise_reading : Feed.FeedEntity :=
  reading "V5" (Some (sample_position (Some 10.0078125%float))) (Some 1700000000%N).

Definition reading_without_speed : Feed.FeedEntity :=
  reading "V6" (Some (sample_position None)) (Some 1700000000%N).

(** Indian Standard Time, UTC+05:30. *)
Definition IST : Z -> Z := fun _ => 19800.

(** A world whose decoder yields [feed] and whose zone is IST. *)
Definition sample_world (outcome : nat -> HttpOutcome) (feed : list Feed.FeedEntity)
    (raw count summary : bool) : World :=
  mkWorld outcome (fun _ => Some feed) IST (fun _ => "2024-01-01T00:00:00"%string)
    raw count summary (fun cells => fold_left PrimFloat.add cells 0.0%float).

Definition always_ok : nat -> HttpOutcome := fun _ => Response 200 [].

Definition empty_machine : Machine := mkMachine None None None [] 0.

(** A reading of the bus that the feed identifies as "BUS-42", in the
    entity "E9". *)
Definition reading_of_bus_42 : Feed.FeedEntity :=
  Feed.mkEntity "E9"
    (Some (Feed.mkVehicle (Some (sample_position (Some 10.0%float)))
             (Some 1700000000%N) (Some (Feed.mkDescriptor "BUS-42")))).

(** A reading without speed stamped 9999-12-31T23:59:59Z, the last second
    [datetime] can hold. *)
Definition reading_without_speed_in_9999 : Feed.FeedEntity :=
  reading "V7" (Some (sample_position None)) (Some 253402300799%N).

(** The sample reading again, in the same second, at another speed. *)
Definition repeated_reading : Feed.FeedEntity :=
  reading "V1" (Some (sample_position (Some 10.0078125%float))) (Some 1700000000%N).

(** * Properties *)

(** ** [round] on known values

    The values CPython prints for the same calls. *)

(** [round(numpy.float64(2.675), 2) == 2.68]: the product with 100 rounds
    to 267.5, which [rint] takes to 268. *)
Example numpy_round_2_675 :
  NumPy.round 0x1.5666666666666p+1%float 2 = 0x1.570a3d70a3d71p+1%float.
Proof. vm_compute. reflexivity. Qed.

(** [numpy.rint] on ties and on a small negative value. *)
Example numpy_rint_ties :
  NumPy.rint 0.5%float = 0.0%float /\ NumPy.rint 1.5%float = 2.0%float
  /\ NumPy.rint 2.5%float = 2.0%float
  /\ NumPy.rint (-0.25)%float = (-0.0)%float.
Proof. vm_compute. repeat split. Qed.

(** [round(2.675, 2) == 2.67]: the double nearest 2.675 lies below it. *)
Example round_2_675 :
  PyFloat.round 0x1.5666666666666p+1%float 2 = 0x1.55c28f5c28f5cp+1%float.
Proof. vm_compute. reflexivity. Qed.

(** [round(0.125, 2) == 0.12]: an exact tie goes to the even digit. *)
Example round_0_125 : PyFloat.round 0.125%float 2 = 0x1.eb851eb851eb8p-4%float.
Proof. vm_compute. reflexivity. Qed.

(** [round(-0.001, 2) == -0.0] *)
Example round_minus_0_001 :
  PyFloat.round (-0x1.0624dd2f1a9fcp-10)%float 2 = (-0.0)%float.
Proof. vm_compute. reflexivity. Qed.

(** [round(10.0078125, 2) == 10.01] *)
Example round_10_0078125 :
  PyFloat.round 10.0078125%float 2 = 0x1.4051eb851eb85p+3%float.
Proof. vm_compute. reflexivity. Qed.

(** [round(123456789.123456789, 6) == 123456789.123457] *)
Example round_six_digits :
  PyFloat.round 0x1.d6f34547e6b75p+26%float 6 = 0x1.d6f34547e6b83p+26%float.
Proof. vm_compute. reflexivity. Qed.

(** [round(1e300, 2) == 1e300] *)
Example round_1e300 :
  PyFloat.round 0x1.7e43c8800759cp+996%float 2 = 0x1.7e43c8800759cp+996%float.
Proof. vm_compute. reflexivity. Qed.

(** [datetime.fromtimestamp] at the edges of its four ranges. *)
Example fromtimestamp_edges :
  DateTime.fromtimestamp 253402300799 = inr 253402300799
  /\ DateTime.fromtimestamp 253402300800 = inl ValueError
  /\ DateTime.fromtimestamp 67768036191676799 = inl ValueError
  /\ DateTime.fromtimestamp 67768036191676800 = inl OSError
  /\ DateTime.fromtimestamp (2 ^ 63 - 1) = inl OSError
  /\ DateTime.fromtimestamp (2 ^ 63) = inl OverflowError.
Proof. repeat split. Qed.

(** ** Rounding keeps a value inside decimal bounds *)

Section RoundingFacts.

Import PyFloat.

Lemma round_half_even_div_lower (a d lo : Z) :
  0 < d -> d * lo <= a -> lo <= round_half_even_div a d.
Proof.
  intros Hd Ha. unfold round_half_even_div.
  assert (lo <= a / d) by (apply Z.div_le_lower_bound; lia).
  destruct (2 * (a mod d) ?= d); [destruct (Z.even (a / d)) | | ]; lia.
Qed.

Lemma round_half_even_div_upper (a d hi : Z) :
  0 < d -> 2 * a < (2 * hi + 1) * d -> round_half_even_div a d <= hi.
Proof.
  intros Hd Ha. unfold round_half_even_div.
  pose proof (Z.div_mod a d ltac:(lia)) as Hdiv.
  pose proof (Z.mod_pos_bound a d Hd) as Hmod.
  assert (a / d <= hi) as Hq by nia.
  destruct (Z.compare_spec (2 * (a mod d)) d) as [Heq | Hlt | Hgt].
  - destruct (Z.even (a / d)); [lia | nia].
  - lia.
  - nia.
Qed.

Lemma forall_block_spec (P : Z -> bool) (k : nat) :
  forall lo, forall_block P k lo = true ->
  forall n, lo <= n < lo + 2 ^ Z.of_nat k -> P n = true.
Proof.
  induction k as [| k IH]; intros lo H n Hn.
  - simpl in *. replace n with lo by lia. exact H.
  - cbn [forall_block] in H. apply andb_true_iff in H as [Hl Hr].
    rewrite Nat2Z.inj_succ, Z.pow_succ_r in Hn by lia.
    destruct (Z_lt_le_dec n (lo + 2 ^ Z.of_nat k)).
    + apply (IH lo); [assumption | lia].
    + apply (IH (lo + 2 ^ Z.of_nat k)); [assumption | lia].
Qed.

Lemma decimals_within_spec (k lo hi : Z) (flo fhi : float) (b : nat) :
  forall_block (decimals_within k lo hi flo fhi) b lo = true ->
  hi < lo + 2 ^ Z.of_nat b ->
  forall n, lo <= n <= hi ->
    (flo <=? decimal_to_float false n k)%float = true
    /\ (decimal_to_float false n k <=? fhi)%float = true.
Proof.
  intros Hall Hb n Hn.
  pose proof (forall_block_spec _ _ _ Hall n ltac:(lia)) as Hp.
  unfold decimals_within in Hp.
  replace (lo <=? n) with true in Hp by (symmetry; apply Z.leb_le; lia).
  replace (n <=? hi) with true in Hp by (symmetry; apply Z.leb_le; lia).
  simpl in Hp. now apply andb_true_iff in Hp.
Qed.

Lemma speed_decimals (n : Z) :
  0 <= n <= 3000 ->
  (0.0 <=? decimal_to_float false n 2)%float = true
  /\ (decimal_to_float false n 2 <=? SPEED_MAX_M_S)%float = true.
Proof.
  apply (decimals_within_spec 2 0 3000 0.0%float SPEED_MAX_M_S 12).
  - vm_compute. reflexivity.
  - vm_compute. reflexivity.
Qed.

Lemma digits2_pos_size (p : positive) : digits2_pos p = Pos.size p.
Proof. induction p; simpl; congruence. Qed.

Lemma Zpos_lt_pow_size (p : positive) : Z.pos p < 2 ^ Z.pos (Pos.size p).
Proof.
  pose proof (Pos.size_gt p) as H.
  apply Pos2Z.pos_lt_pos in H. now rewrite Pos2Z.inj_pow in H.
Qed.

Lemma pow_size_le (p : positive) : 2 ^ Z.pos (Pos.size p) <= 2 * Z.pos p.
Proof.
  pose proof (Pos.size_le p) as H.
  apply Pos2Z.pos_le_pos in H. now rewrite Pos2Z.inj_pow in H.
Qed.

Lemma Zdigits2_of_bounds (n d : Z) :
  0 < d -> 2 ^ (d - 1) <= n < 2 ^ d -> Zdigits2 n = d.
Proof.
  intros Hd [Hlo Hhi].
  assert (0 < n) as Hn by (pose proof (Z.pow_pos_nonneg 2 (d - 1)); lia).
  destruct n as [| p | p]; try lia.
  simpl. rewrite digits2_pos_size.
  pose proof (Zpos_lt_pow_size p) as H1.
  pose proof (pow_size_le p) as H2.
  set (s := Z.pos (Pos.size p)) in *.
  assert (0 < s) by (unfold s; lia).
  destruct (Z.lt_trichotomy s d) as [Hlt | [Heq | Hgt]]; [exfalso | assumption | exfalso].
  - assert (2 ^ s <= 2 ^ (d - 1)) by (apply Z.pow_le_mono_r; lia). lia.
  - assert (2 ^ d <= 2 ^ (s - 1)) by (apply Z.pow_le_mono_r; lia).
    replace s with (Z.succ (s - 1)) in H2 by lia.
    rewrite Z.pow_succ_r in H2 by lia. lia.
Qed.

Lemma shr_record_of_loc_m (m : Z) (l : location) : shr_m (shr_record_of_loc m l) = m.
Proof. destruct l as [| []]; reflexivity. Qed.

Lemma loc_of_shr_record_of_loc (m : Z) (l : location) :
  loc_of_shr_record (shr_record_of_loc m l) = l.
Proof. destruct l as [| []]; reflexivity. Qed.

Lemma shr_fexp_no_shift (m e : Z) (l : location) :
  Zdigits2 m = 53 -> -1074 <= e ->
  shr_fexp prec emax m e l = (shr_record_of_loc m l, e).
Proof.
  intros Hd He. unfold shr_fexp, fexp, SpecFloat.emin, prec, emax. rewrite Hd.
  replace (Z.max (53 + e - 53) (3 - 1024 - 53) - e) with 0 by lia.
  reflexivity.
Qed.

Lemma round_nearest_even_cases (m : Z) (l : location) :
  round_nearest_even m l = m \/ round_nearest_even m l = m + 1.
Proof. destruct l as [| []]; simpl; try destruct (Z.even m); auto. Qed.

Lemma binary_round_aux_normal (q e : Z) (l : location) (mlo mhi : positive) :
  -1074 <= e <= 971 ->
  2 ^ 52 <= Z.pos mlo -> Z.pos mhi < 2 ^ 53 ->
  Z.pos mlo <= q -> q + 1 <= Z.pos mhi ->
  exists mz, binary_round_aux prec emax false q e l = S754_finite false mz e
             /\ Z.pos mlo <= Z.pos mz <= Z.pos mhi.
Proof.
  intros He Hlo Hhi Hq1 Hq2.
  assert (Zdigits2 q = 53) as Hdq by (apply Zdigits2_of_bounds; lia).
  unfold binary_round_aux.
  rewrite (shr_fexp_no_shift q e l Hdq) by lia.
  rewrite shr_record_of_loc_m, loc_of_shr_record_of_loc.
  set (mz := round_nearest_even q l).
  assert (q <= mz <= q + 1) as Hmz
    by (unfold mz; destruct (round_nearest_even_cases q l) as [-> | ->]; lia).
  assert (Zdigits2 mz = 53) as Hdz by (apply Zdigits2_of_bounds; lia).
  rewrite (shr_fexp_no_shift mz e loc_Exact Hdz) by lia.
  cbn [shr_record_of_loc shr_m].
  destruct mz as [| p | p]; try lia.
  replace (e <=? emax - prec) with true
    by (symmetry; apply Z.leb_le; unfold emax, prec; lia).
  exists p. split; [reflexivity | lia].
Qed.

Lemma decimal_to_float_normal (n k dn dk e : Z) (mlo mhi : positive) :
  0 < n -> 0 <= k ->
  Zdigits2 n = dn -> Zdigits2 (10 ^ k) = dk ->
  e = dn - dk - 53 -> -1074 <= e < 0 ->
  2 ^ 52 <= Z.pos mlo -> Z.pos mhi < 2 ^ 53 ->
  Z.pos mlo <= (n * 2 ^ (- e)) / 10 ^ k ->
  (n * 2 ^ (- e)) / 10 ^ k + 1 <= Z.pos mhi ->
  exists mz, decimal_to_float false n k = SF2Prim (S754_finite false mz e)
             /\ Z.pos mlo <= Z.pos mz <= Z.pos mhi.
Proof.
  intros Hn Hk Hdn Hdk He Hrange Hlo Hhi Hq1 Hq2.
  unfold decimal_to_float. destruct n as [| p | p]; try lia.
  unfold SFdiv_core_binary. rewrite Hdn, Hdk.
  unfold fexp, SpecFloat.emin, prec, emax.
  replace (Z.min (Z.max (dn + 0 - (dk + 0) - 53) (3 - 1024 - 53)) (0 - 0)) with e by lia.
  replace (0 - 0 - e) with (- e) by lia.
  destruct (- e) as [| s | s] eqn:Hs; try lia.
  rewrite Z.shiftl_mul_pow2 by lia.
  pose proof (Z.pow_pos_nonneg 10 k ltac:(lia) Hk) as Hpow.
  unfold Z.div in Hq1, Hq2.
  destruct (Z.div_eucl (Z.pos p * 2 ^ Z.pos s) (10 ^ k)) as [q r].
  destruct (binary_round_aux_normal q e (new_location (10 ^ k) r) mlo mhi)
    as (mz & Hmz & Hb); try lia.
  exists mz. fold prec emax. unfold prec, emax in *. rewrite Hmz. auto.
Qed.

Lemma valid_binary_normal (mz : positive) (e : Z) :
  2 ^ 52 <= Z.pos mz < 2 ^ 53 -> -1074 <= e <= 971 ->
  valid_binary (S754_finite false mz e) = true.
Proof.
  intros Hm He.
  pose proof (Zdigits2_of_bounds (Z.pos mz) 53 ltac:(lia) ltac:(lia)) as Hd.
  simpl in Hd. unfold valid_binary, SpecFloat.valid_binary, bounded, canonical_mantissa.
  rewrite Hd. unfold fexp, SpecFloat.emin, prec, emax.
  apply andb_true_iff. split; [apply Z.eqb_eq | apply Z.leb_le]; lia.
Qed.

Lemma SFleb_same_exponent (m m' : positive) (e : Z) :
  SFleb (S754_finite false m e) (S754_finite false m' e) = true
  <-> Z.pos m <= Z.pos m'.
Proof.
  unfold SFleb, SFcompare. rewrite Z.compare_refl.
  change (Pos.compare_cont Eq m m') with (Z.pos m ?= Z.pos m').
  unfold Z.le. destruct (Z.pos m ?= Z.pos m'); split; intros; congruence.
Qed.

(** A finite positive float is below [x] only when [x] is finite and positive
    with an exponent at least as large, or is the positive infinity. *)
Lemma SFleb_finite_l (m0 : positive) (e0 : Z) (x : spec_float) :
  SFleb (S754_finite false m0 e0) x = true ->
  x = S754_infinity false
  \/ exists m e, x = S754_finite false m e
                 /\ (e0 < e \/ (e0 = e /\ Z.pos m0 <= Z.pos m)).
Proof.
  unfold SFleb, SFcompare.
  destruct x as [s | [] | | [] m e]; try discriminate; auto.
  intros H. right. exists m, e. split; [reflexivity |].
  destruct (Z.compare_spec e0 e) as [Heq | Hlt | Hgt]; try discriminate; [| lia].
  right. split; [assumption |].
  change (Pos.compare_cont Eq m0 m) with (Z.pos m0 ?= Z.pos m) in H.
  unfold Z.le. destruct (Z.pos m0 ?= Z.pos m); congruence.
Qed.

Lemma SFleb_finite_r (m m1 : positive) (e e1 : Z) :
  SFleb (S754_finite false m e) (S754_finite false m1 e1) = true ->
  e < e1 \/ (e = e1 /\ Z.pos m <= Z.pos m1).
Proof.
  unfold SFleb, SFcompare.
  destruct (Z.compare_spec e e1) as [Heq | Hlt | Hgt]; try discriminate; [| lia].
  change (Pos.compare_cont Eq m m1) with (Z.pos m ?= Z.pos m1).
  intros H. right. split; [assumption |].
  unfold Z.le. destruct (Z.pos m ?= Z.pos m1); congruence.
Qed.

Lemma round_within_binade (flo fhi : float) (m0 m1 : positive)
    (e k nlo nhi dn : Z) :
  Prim2SF flo = S754_finite false m0 e ->
  Prim2SF fhi = S754_finite false m1 e ->
  -1074 <= e < 0 -> 0 <= k <= 323 ->
  2 ^ 52 <= Z.pos m0 -> Z.pos m1 < 2 ^ 53 ->
  0 < dn -> 2 ^ (dn - 1) <= nlo -> nhi < 2 ^ dn ->
  e = dn - Zdigits2 (10 ^ k) - 53 ->
  2 ^ (- e) * nlo <= Z.pos m0 * 10 ^ k ->
  2 * (Z.pos m1 * 10 ^ k) < (2 * nhi + 1) * 2 ^ (- e) ->
  Z.pos m0 <= (nlo * 2 ^ (- e)) / 10 ^ k ->
  (nhi * 2 ^ (- e)) / 10 ^ k + 1 <= Z.pos m1 ->
  forall x, (flo <=? x)%float = true -> (x <=? fhi)%float = true ->
    (flo <=? round x k)%float = true /\ (round x k <=? fhi)%float = true.
Proof.
  intros Hflo Hfhi He Hk Hm0 Hm1 Hdn Hnlo Hnhi Hexp Hlow Hupp Hq0 Hq1 x Hx0 Hx1.
  rewrite leb_spec, Hflo in Hx0. rewrite leb_spec, Hfhi in Hx1.
  apply SFleb_finite_l in Hx0 as [Hinf | (m & e' & Hx & Hcmp)].
  { rewrite Hinf in Hx1. discriminate. }
  rewrite Hx in Hx1. apply SFleb_finite_r in Hx1.
  assert (e' = e /\ Z.pos m0 <= Z.pos m <= Z.pos m1) as [-> Hm] by lia.
  clear Hcmp Hx1.
  unfold round. replace (323 <? k) with false by (symmetry; apply Z.ltb_ge; lia).
  rewrite Hx. unfold scaled_nearest.
  replace (0 <=? e) with false by (symmetry; apply Z.leb_gt; lia).
  pose proof (Z.pow_pos_nonneg 2 (- e) ltac:(lia) ltac:(lia)) as H2e.
  pose proof (Z.pow_pos_nonneg 10 k ltac:(lia) ltac:(lia)) as H10k.
  set (n := round_half_even_div (Z.pos m * 10 ^ k) (2 ^ (- e))).
  assert (nlo <= n) as Hn0 by (apply round_half_even_div_lower; nia).
  assert (n <= nhi) as Hn1 by (apply round_half_even_div_upper; nia).
  assert (0 < nlo) by (pose proof (Z.pow_pos_nonneg 2 (dn - 1)); lia).
  destruct (decimal_to_float_normal n k dn (Zdigits2 (10 ^ k)) e m0 m1)
    as (mz & -> & Hmz); try lia.
  - apply Zdigits2_of_bounds; lia.
  - etransitivity; [exact Hq0 |].
    apply Z.div_le_mono; [lia | nia].
  - assert ((n * 2 ^ (- e)) / 10 ^ k <= (nhi * 2 ^ (- e)) / 10 ^ k)
      by (apply Z.div_le_mono; [lia | nia]).
    lia.
  - rewrite !leb_spec, Hflo, Hfhi.
    rewrite Prim2SF_SF2Prim by (apply valid_binary_normal; lia).
    split; apply SFleb_same_exponent; lia.
Qed.

Lemma round_latitude_within (lat : float) :
  (LAT_MIN <=? lat)%float = true -> (lat <=? LAT_MAX)%float = true ->
  (LAT_MIN <=? round lat 6)%float = true /\ (round lat 6 <=? LAT_MAX)%float = true.
Proof.
  apply (round_within_binade LAT_MIN LAT_MAX 8022036836253696 8106479329266893
           (-48) 6 28500000 28800000 25);
    try (vm_compute; (reflexivity || (split; congruence) || congruence)).
Qed.

Lemma round_longitude_within (lon : float) :
  (LON_MIN <=? lon)%float = true -> (lon <=? LON_MAX)%float = true ->
  (LON_MIN <=? round lon 6)%float = true /\ (round lon 6 <=? LON_MAX)%float = true.
Proof.
  apply (round_within_binade LON_MIN LON_MAX 5418393301680128 5446540799351194
           (-46) 6 77000000 77400000 27);
    try (vm_compute; (reflexivity || (split; congruence) || congruence)).
Qed.

Lemma valid_mantissa_lt (m : positive) (e : Z) :
  valid_binary (S754_finite false m e) = true -> Z.pos m < 2 ^ 53.
Proof.
  unfold valid_binary, SpecFloat.valid_binary, bounded, canonical_mantissa.
  rewrite digits2_pos_size. unfold fexp, SpecFloat.emin, prec, emax.
  intros H. apply andb_true_iff in H as [H _]. apply Z.eqb_eq in H.
  pose proof (Zpos_lt_pow_size m) as Hlt.
  assert (2 ^ Z.pos (Pos.size m) <= 2 ^ 53) by (apply Z.pow_le_mono_r; lia).
  lia.
Qed.

Lemma Prim2SF_zero : Prim2SF 0.0 = S754_zero false.
Proof. vm_compute. reflexivity. Qed.
Lemma Prim2SF_SPEED_MAX : Prim2SF SPEED_MAX_M_S = S754_finite false 8444249301319680 (-48).
Proof. vm_compute. reflexivity. Qed.
Lemma round_speed_within (speed : float) :
  (0.0 <=? speed)%float = true -> (speed <=? SPEED_MAX_M_S)%float = true ->
  (0.0 <=? round speed 2)%float = true
  /\ (round speed 2 <=? SPEED_MAX_M_S)%float = true.
Proof.
  intros H0 H1. pose proof H0 as H0'. pose proof H1 as H1'.
  rewrite leb_spec in H0', H1'.
  pose proof (Prim2SF_valid speed) as Hvalid.
  rewrite Prim2SF_zero in H0'. rewrite Prim2SF_SPEED_MAX in H1'.
  unfold round. replace (323 <? 2) with false by reflexivity.
  destruct (Prim2SF speed) as [s | s | | s m e] eqn:Hx.
  1-3: (split; assumption).
  destruct s; [discriminate |].
  apply SFleb_finite_r in H1'.
  apply valid_mantissa_lt in Hvalid.
  unfold scaled_nearest.
  replace (0 <=? e) with false by (symmetry; apply Z.leb_gt; lia).
  apply speed_decimals.
  pose proof (Z.pow_pos_nonneg 2 (- e) ltac:(lia) ltac:(lia)) as H2e.
  replace (10 ^ 2) with 100 by reflexivity.
  split.
  - apply round_half_even_div_lower; lia.
  - apply round_half_even_div_upper; [lia |].
    destruct H1' as [Hlt | [-> Hle]].
    + assert (2 ^ 49 <= 2 ^ (- e)) by (apply Z.pow_le_mono_r; lia).
      replace (2 ^ 49) with 562949953421312 in * by reflexivity.
      replace (2 ^ 53) with 9007199254740992 in * by reflexivity. lia.
    + replace (2 ^ (- -48)) with 281474976710656 by reflexivity. lia.
Qed.

End RoundingFacts.


(** ** The validation loop *)

Section LoopFacts.

Variable off : Z -> Z.

Lemma process_loop_spec (entities : list Feed.FeedEntity) :
  forall rows skipped,
    process_loop off entities rows skipped =
    match first_throw off entities with
    | Some e => inl e
    | None => inr (rows ++ kept off entities, skipped + dropped off entities)%nat
    end.
Proof.
  induction entities as [| entity rest IH]; intros rows skipped.
  - simpl. now rewrite app_nil_r, Nat.add_0_r.
  - cbn [process_loop first_throw]. unfold kept, dropped. cbn [flat_map filter].
    destruct (process_entity off entity) as [site | row | e].
    + rewrite IH. destruct (first_throw off rest); [reflexivity |].
      cbn [List.length]. f_equal. f_equal. unfold dropped. lia.
    + rewrite IH. destruct (first_throw off rest); [reflexivity |].
      now rewrite <- app_assoc.
    + reflexivity.
Qed.

Lemma process_loop_returns (entities : list Feed.FeedEntity) (rows : list Row.t)
    (skipped : nat) :
  process_loop off entities [] 0 = inr (rows, skipped) ->
  first_throw off entities = None /\ rows = kept off entities /\ skipped = dropped off entities.
Proof.
  rewrite process_loop_spec. destruct (first_throw off entities); [discriminate |].
  simpl. intros H. injection H as <- <-. auto.
Qed.

Lemma first_throw_none (entities : list Feed.FeedEntity) :
  first_throw off entities = None <->
  forall entity, In entity entities -> forall e, process_entity off entity <> Throw e.
Proof.
  induction entities as [| entity rest IH]; simpl.
  - split; [intros _ ? [] | reflexivity].
  - destruct (process_entity off entity) as [site | row | e] eqn:He.
    + rewrite IH. split.
      * intros H x [<- | Hin]; [rewrite He; discriminate | now apply H].
      * intros H x Hin. apply H. now right.
    + rewrite IH. split.
      * intros H x [<- | Hin]; [rewrite He; discriminate | now apply H].
      * intros H x Hin. apply H. now right.
    + split; [discriminate |].
      intros H. exfalso. apply (H entity (or_introl eq_refl) e He).
Qed.

Lemma in_kept (entities : list Feed.FeedEntity) (row : Row.t) :
  In row (kept off entities) <->
  exists entity, In entity entities /\ process_entity off entity = Keep row.
Proof.
  unfold kept. rewrite in_flat_map. split.
  - intros (entity & Hin & Hrow). exists entity. split; [assumption |].
    destruct (process_entity off entity); simpl in Hrow; try contradiction.
    destruct Hrow as [-> | []]. reflexivity.
  - intros (entity & Hin & Hrow). exists entity. split; [assumption |].
    rewrite Hrow. now left.
Qed.

(** Every entity is either kept or counted, when none raises. *)
Lemma kept_plus_dropped (entities : list Feed.FeedEntity) :
  first_throw off entities = None ->
  (List.length (kept off entities) + dropped off entities = List.length entities)%nat.
Proof.
  unfold kept, dropped.
  induction entities as [| entity rest IH]; [reflexivity |].
  cbn [first_throw flat_map filter].
  destruct (process_entity off entity); intros H; try discriminate;
    specialize (IH H); cbn [List.length app]; lia.
Qed.

End LoopFacts.

(** ** Removing duplicates *)

Section DedupFacts.

Import Row.

Lemma Local_eqb_eq (a b : DateTime.Local) : DateTime.Local_eqb a b = true <-> a = b.
Proof.
  unfold DateTime.Local_eqb. rewrite andb_true_iff, !Z.eqb_eq.
  destruct a, b; simpl. split; [intros [-> ->]; reflexivity | intros H; now inversion H].
Qed.

Lemma key_eqb_eq (a b : string * DateTime.Local) : key_eqb a b = true <-> a = b.
Proof.
  unfold key_eqb. rewrite andb_true_iff, String.eqb_eq, Local_eqb_eq.
  destruct a, b; simpl. split; [intros [-> ->]; reflexivity | intros H; now inversion H].
Qed.

Lemma key_eqb_refl (a : string * DateTime.Local) : key_eqb a a = true.
Proof. now apply key_eqb_eq. Qed.

Lemma key_seen_iff (k : string * DateTime.Local) (seen : list (string * DateTime.Local)) :
  existsb (key_eqb k) seen = true <-> In k seen.
Proof.
  rewrite existsb_exists. split.
  - intros (x & Hin & Heq). apply key_eqb_eq in Heq. now subst.
  - intros Hin. exists k. split; [assumption | apply key_eqb_refl].
Qed.

Lemma key_not_seen_iff (k : string * DateTime.Local) (seen : list (string * DateTime.Local)) :
  existsb (key_eqb k) seen = false <-> ~ In k seen.
Proof.
  rewrite <- key_seen_iff. destruct (existsb (key_eqb k) seen); split; congruence.
Qed.

Lemma drop_duplicates_from_subseq (rows : list Row.t) :
  forall seen, subseq (drop_duplicates_from seen rows) rows.
Proof.
  induction rows as [| r rest IH]; intros seen; simpl.
  - constructor.
  - destruct (existsb (key_eqb (key r)) seen); constructor; apply IH.
Qed.

Lemma drop_duplicates_from_in (rows : list Row.t) :
  forall seen r, In r (drop_duplicates_from seen rows) ->
                 In r rows /\ ~ In (key r) seen.
Proof.
  induction rows as [| x rest IH]; intros seen r; simpl; [contradiction |].
  destruct (existsb (key_eqb (key x)) seen) eqn:Hseen.
  - intros H. apply IH in H as [? ?]. auto.
  - intros [<- | H].
    + split; [now left | now apply key_not_seen_iff].
    + apply IH in H as [? Hn]. split; [now right |].
      intros Hin. apply Hn. now right.
Qed.

Lemma drop_duplicates_from_NoDup (rows : list Row.t) :
  forall seen, NoDup (map key (drop_duplicates_from seen rows)).
Proof.
  induction rows as [| x rest IH]; intros seen; simpl; [constructor |].
  destruct (existsb (key_eqb (key x)) seen); [apply IH |].
  simpl. constructor; [| apply IH].
  rewrite in_map_iff. intros (r & Hk & Hin).
  apply drop_duplicates_from_in in Hin as [_ Hn]. apply Hn. left. congruence.
Qed.

(** A list whose keys are distinct and unseen is left as it is. *)
Lemma drop_duplicates_from_fixed (rows : list Row.t) :
  forall seen, NoDup (map key rows) ->
               (forall r, In r rows -> ~ In (key r) seen) ->
               drop_duplicates_from seen rows = rows.
Proof.
  induction rows as [| x rest IH]; intros seen Hnd Hseen; simpl; [reflexivity |].
  inversion Hnd as [| ? ? Hx Hrest]; subst.
  replace (existsb (key_eqb (key x)) seen) with false
    by (symmetry; apply key_not_seen_iff, Hseen; now left).
  f_equal. apply IH; [assumption |].
  intros r Hin [Heq | Hin']; [| apply (Hseen r); [now right | assumption]].
  apply Hx. rewrite Heq. now apply in_map.
Qed.

Lemma drop_duplicates_from_idempotent (rows : list Row.t) (seen : list (string * DateTime.Local)) :
  drop_duplicates_from seen (drop_duplicates_from seen rows)
  = drop_duplicates_from seen rows.
Proof.
  apply drop_duplicates_from_fixed.
  - apply drop_duplicates_from_NoDup.
  - intros r Hin. now apply drop_duplicates_from_in in Hin.
Qed.

Lemma key_seen_congr (k : string * DateTime.Local) (l1 l2 : list (string * DateTime.Local)) :
  (In k l1 <-> In k l2) -> existsb (key_eqb k) l1 = existsb (key_eqb k) l2.
Proof.
  intros H. destruct (existsb (key_eqb k) l2) eqn:H2.
  - apply key_seen_iff. apply H. now apply key_seen_iff.
  - apply key_not_seen_iff. rewrite H. now apply key_not_seen_iff.
Qed.

(** The last row is kept exactly when its key was not met before it. *)
Lemma drop_duplicates_from_snoc (rows : list Row.t) (r : Row.t) :
  forall seen,
    drop_duplicates_from seen (rows ++ [r]) =
    drop_duplicates_from seen rows
    ++ (if existsb (key_eqb (key r)) (seen ++ map key rows) then [] else [r]).
Proof.
  induction rows as [| x rest IH]; intros seen.
  - simpl. rewrite app_nil_r. now destruct (existsb (key_eqb (key r)) seen).
  - cbn [app drop_duplicates_from map].
    destruct (existsb (key_eqb (key x)) seen) eqn:Hx.
    + rewrite IH. f_equal.
      apply key_seen_iff in Hx.
      rewrite (key_seen_congr (key r) (seen ++ map key rest)
                 (seen ++ key x :: map key rest)); [reflexivity |].
      rewrite !in_app_iff. simpl. split; [tauto |].
      intros [? | [<- | ?]]; auto.
    + rewrite IH.
      rewrite (key_seen_congr (key r) ((key x :: seen) ++ map key rest)
                 (seen ++ key x :: map key rest)); [reflexivity |].
      simpl. rewrite !in_app_iff. simpl. tauto.
Qed.

(** For every key, the row that survives is the first row of the input
    with that key. *)
Lemma drop_duplicates_from_find (rows : list Row.t) (k : string * DateTime.Local) :
  forall seen, ~ In k seen ->
    find (fun r => key_eqb k (key r)) (drop_duplicates_from seen rows)
    = find (fun r => key_eqb k (key r)) rows.
Proof.
  induction rows as [| x rest IH]; intros seen Hk; simpl; [reflexivity |].
  destruct (existsb (key_eqb (key x)) seen) eqn:Hx.
  - destruct (key_eqb k (key x)) eqn:Hkx.
    + apply key_eqb_eq in Hkx. apply key_seen_iff in Hx. congruence.
    + now apply IH.
  - simpl. destruct (key_eqb k (key x)) eqn:Hkx; [reflexivity |].
    apply IH. intros [Heq | Hin]; [| contradiction].
    rewrite Heq, key_eqb_refl in Hkx. discriminate.
Qed.

End DedupFacts.

(** ** One pass through the loop body *)

Section EntityFacts.

Variable off : Z -> Z.

Lemma process_entity_keep (entity : Feed.FeedEntity) (row : Row.t) :
  process_entity off entity = Keep row ->
  exists pos t ts local,
    Feed.position (Feed.get_vehicle entity) = Some pos
    /\ Feed.timestamp (Feed.get_vehicle entity) = Some t
    /\ validate_location (Feed.latitude pos) (Feed.longitude pos) = true
    /\ validate_speed (Feed.get_speed pos) = true
    /\ DateTime.fromtimestamp t = inr ts
    /\ DateTime.astimezone off ts = inr local
    /\ row = row_of entity pos local.
Proof.
  unfold process_entity.
  destruct (Feed.position (Feed.get_vehicle entity)) as [pos |]; [| discriminate].
  destruct (Feed.timestamp (Feed.get_vehicle entity)) as [t |]; [| discriminate].
  destruct (validate_location _ _) eqn:Hloc; [| discriminate].
  destruct (validate_speed _) eqn:Hspeed; [| discriminate].
  cbn [negb].
  destruct (DateTime.fromtimestamp t) as [[] | ts] eqn:Hts; try discriminate.
  destruct (DateTime.astimezone off ts) as [e | local] eqn:Hlocal; [discriminate |].
  intros H. injection H as <-.
  exists pos, t, ts, local. repeat split; auto.
Qed.

Lemma process_entity_valid (entity : Feed.FeedEntity) (pos : Feed.Position)
    (t : N) (ts : Z) (local : DateTime.Local) :
  Feed.position (Feed.get_vehicle entity) = Some pos ->
  Feed.timestamp (Feed.get_vehicle entity) = Some t ->
  validate_location (Feed.latitude pos) (Feed.longitude pos) = true ->
  validate_speed (Feed.get_speed pos) = true ->
  DateTime.fromtimestamp t = inr ts ->
  DateTime.astimezone off ts = inr local ->
  process_entity off entity = Keep (row_of entity pos local).
Proof.
  intros Hpos Ht Hloc Hspeed Hts Hlocal. unfold process_entity.
  rewrite Hpos, Ht, Hloc, Hspeed, Hts, Hlocal. reflexivity.
Qed.

(** The four ways to be counted as skipped, in the order of the checks. *)
Lemma process_entity_skip (entity : Feed.FeedEntity) (site : skip_site) :
  process_entity off entity = Skip site <-> skipped_at entity site.
Proof.
  unfold process_entity, skipped_at. cbv zeta.
  destruct (Feed.position (Feed.get_vehicle entity)) as [pos |];
    [destruct (Feed.timestamp (Feed.get_vehicle entity)) as [t |];
     [destruct (validate_location _ _) eqn:Hloc; cbn [negb];
      [destruct (validate_speed _) eqn:Hspeed; cbn [negb];
       [destruct (DateTime.fromtimestamp t) as [[] | ts] eqn:Hts;
        try destruct (DateTime.astimezone off ts) | ] | ] | ] | ];
    destruct site; split; intros H;
    repeat match goal with
      | H : exists _, _ |- _ => destruct H
      | H : _ /\ _ |- _ => destruct H
      | H : _ \/ _ |- _ => destruct H
      | H : Some _ = Some _ |- _ => injection H as <-
      end;
    try congruence; eauto 10.
Qed.

(** Each pollutant column of [estimate_emissions], for any way [g] of
    turning a factor into an estimate. *)
Lemma lookup_factor (g : float -> float) (p : string) (f : float) :
  In (p, f) EMISSION_FACTORS ->
  Row.lookup p (map (fun pf => (fst pf, g (snd pf))) EMISSION_FACTORS) = Some (g f).
Proof.
  intros [H | [H | [H | [H | []]]]]; injection H as <- <-; reflexivity.
Qed.

Lemma pollutant_estimate_emissions (distance : float) (p : string) (f : float) :
  In (p, f) EMISSION_FACTORS ->
  Row.lookup p (estimate_emissions distance)
  = Some (PyFloat.round (f * distance)%float 2).
Proof.
  intros H. unfold estimate_emissions.
  apply (lookup_factor (fun x => PyFloat.round (x * distance)%float 2) p f H).
Qed.

End EntityFacts.

(** ** The retry loop *)

Section FetchFacts.

Variable w : World.

Lemma record_record (m : Machine) (evs evs' : list Event) :
  record (record m evs) evs' = record m (evs ++ evs').
Proof. unfold record. cbn. now rewrite app_assoc. Qed.

Lemma emit_run (ev : Event) (m : Machine) : emit ev m = (Done tt, record m [ev]).
Proof. reflexivity. Qed.

Lemma log_run (level : Level) (msg : LogMsg) (m : Machine) :
  log level msg m = (Done tt, record m [Log level msg]).
Proof. reflexivity. Qed.

Ltac run_events :=
  cbv [bind ret sys_exit raise get];
  repeat (rewrite ?emit_run, ?log_run; cbv beta iota);
  rewrite ?record_record; cbn [app].

(** The loop as a function of the outcomes of the three attempts. *)
Lemma fetch_attempts_run (m : Machine) :
  fetch_attempts w (seq 0 max_retries) m =
  match http_get w 0%nat with
  | Response s0 c0 =>
      if raise_for_status_raises s0
      then (SystemExit 1, record m [HttpGet 0; Log ERROR ApiRequestFailed])
      else (Done (Some c0), record m [HttpGet 0; Log INFO (ApiRequestSuccessful 1)])
  | RequestError => (SystemExit 1, record m [HttpGet 0; Log ERROR ApiRequestFailed])
  | Timeout =>
      match http_get w 1%nat with
      | Response s1 c1 =>
          if raise_for_status_raises s1
          then (SystemExit 1,
                record m [HttpGet 0; Log WARNING (TimeoutOnAttempt 1 3);
                          HttpGet 1; Log ERROR ApiRequestFailed])
          else (Done (Some c1),
                record m [HttpGet 0; Log WARNING (TimeoutOnAttempt 1 3);
                          HttpGet 1; Log INFO (ApiRequestSuccessful 2)])
      | RequestError =>
          (SystemExit 1,
           record m [HttpGet 0; Log WARNING (TimeoutOnAttempt 1 3);
                     HttpGet 1; Log ERROR ApiRequestFailed])
      | Timeout =>
          match http_get w 2%nat with
          | Response s2 c2 =>
              if raise_for_status_raises s2
              then (SystemExit 1,
                    record m [HttpGet 0; Log WARNING (TimeoutOnAttempt 1 3);
                              HttpGet 1; Log WARNING (TimeoutOnAttempt 2 3);
                              HttpGet 2; Log ERROR ApiRequestFailed])
              else (Done (Some c2),
                    record m [HttpGet 0; Log WARNING (TimeoutOnAttempt 1 3);
                              HttpGet 1; Log WARNING (TimeoutOnAttempt 2 3);
                              HttpGet 2; Log INFO (ApiRequestSuccessful 3)])
          | RequestError =>
              (SystemExit 1,
               record m [HttpGet 0; Log WARNING (TimeoutOnAttempt 1 3);
                         HttpGet 1; Log WARNING (TimeoutOnAttempt 2 3);
                         HttpGet 2; Log ERROR ApiRequestFailed])
          | Timeout =>
              (SystemExit 1,
               record m [HttpGet 0; Log WARNING (TimeoutOnAttempt 1 3);
                         HttpGet 1; Log WARNING (TimeoutOnAttempt 2 3);
                         HttpGet 2; Log WARNING (TimeoutOnAttempt 3 3);
                         Log ERROR MaxRetriesExceeded])
          end
      end
  end.
Proof.
  cbn [seq max_retries fetch_attempts Nat.add Nat.sub Nat.eqb].
  destruct (http_get w 0%nat) as [s0 c0 | |];
    [destruct (raise_for_status_raises s0) | | ]; try (run_events; reflexivity).
  destruct (http_get w 1%nat) as [s1 c1 | |];
    [destruct (raise_for_status_raises s1) | | ]; try (run_events; reflexivity).
  destruct (http_get w 2%nat) as [s2 c2 | |];
    [destruct (raise_for_status_raises s2) | | ]; run_events; reflexivity.
Qed.

Ltac fetch_cases :=
  destruct (http_get w 0%nat) as [s0 c0 | |] eqn:H0;
    [destruct (raise_for_status_raises s0) eqn:R0 | | ];
    [ | | destruct (http_get w 1%nat) as [s1 c1 | |] eqn:H1;
          [destruct (raise_for_status_raises s1) eqn:R1 | | ];
          [ | | destruct (http_get w 2%nat) as [s2 c2 | |] eqn:H2;
                [destruct (raise_for_status_raises s2) eqn:R2 | | ] | ] | ].

Ltac attempt_facts :=
  repeat match goal with
    | H : forall b, (b < 3)%nat -> http_get w b = Timeout |- _ =>
        pose proof (H 0%nat ltac:(lia)); pose proof (H 1%nat ltac:(lia));
        pose proof (H 2%nat ltac:(lia)); clear H
    | H : forall b, (b < 1)%nat -> http_get w b = Timeout |- _ =>
        pose proof (H 0%nat ltac:(lia)); clear H
    | H : forall b, (b < 2)%nat -> http_get w b = Timeout |- _ =>
        pose proof (H 0%nat ltac:(lia)); pose proof (H 1%nat ltac:(lia)); clear H
    | H : forall b, (b < 0)%nat -> http_get w b = Timeout |- _ => clear H
    end.

(** C5.  The fetch makes at most three requests.  The first attempt that
    does not time out settles it: a response without error status returns its
    payload, any other failure exits with code 1, and in both cases no
    further request is made; an attempt that times out before the third is
    followed by the next one; "Max retries exceeded" is logged, and the
    process exits with code 1, exactly when all three attempts time out. *)
Theorem fetch_retries_on_timeout_only (m : Machine) :
  exists evs o,
    fetch_attempts w (seq 0 max_retries) m = (o, record m evs)
    /\ (List.length (http_gets evs) <= 3)%nat
    /\ (forall a, (a < 3)%nat ->
         (forall b, (b < a)%nat -> http_get w b = Timeout) ->
         (forall content, payload_of (http_get w a) = Some content ->
            o = Done (Some content) /\ http_gets evs = seq 0 (S a))
         /\ (request_failed (http_get w a) = true ->
             o = SystemExit 1 /\ http_gets evs = seq 0 (S a)
             /\ In (Log ERROR ApiRequestFailed) evs
             /\ ~ In (Log ERROR MaxRetriesExceeded) evs)
         /\ (http_get w a = Timeout -> (a < 2)%nat -> In (HttpGet (S a)) evs))
    /\ (In (Log ERROR MaxRetriesExceeded) evs <->
        forall b, (b < 3)%nat -> http_get w b = Timeout)
    /\ ((forall b, (b < 3)%nat -> http_get w b = Timeout) ->
        o = SystemExit 1 /\ http_gets evs = [0; 1; 2]%nat)
    /\ no_writes evs.
Proof.
  rewrite fetch_attempts_run.
  fetch_cases; (eexists; eexists; split; [reflexivity |]);
    (split; [cbn; lia |]);
    (split; [intros [| [| [| a]]] Ha Hb; try lia; attempt_facts;
             unfold payload_of, request_failed;
             repeat match goal with
               | H : http_get w _ = _ |- _ => rewrite H in *
               | H : raise_for_status_raises _ = _ |- _ => rewrite H in *
               end;
             try congruence;
             (split; [intros content Hc; try discriminate;
                      try (injection Hc as <-); auto |]);
             (split; [intros Hf; try discriminate; cbn;
                      intuition (auto; congruence)
                     | intros Ht Hlt; try discriminate; try lia; cbn; auto 10])
            |]);
    (split; [split; [intros Hin [| [| [| b]]] Hb; try lia; try assumption;
                     exfalso; cbn in Hin; intuition discriminate
                    | intros Hall; attempt_facts; try congruence; cbn; auto 10] |]);
    (split; [intros Hall; attempt_facts; try congruence; cbn; auto |]);
    unfold no_writes; cbn; intuition discriminate.
Qed.

End FetchFacts.

(** ** The run as a whole *)

Section RunFacts.

Variable w : World.

Lemma no_writes_app (evs evs' : list Event) :
  no_writes (evs ++ evs') <-> no_writes evs /\ no_writes evs'.
Proof. unfold no_writes. rewrite !in_app_iff. tauto. Qed.

Lemma fetch_attempts_outcome (m : Machine) :
  exists evs,
    no_writes evs
    /\ fetch_attempts w (seq 0 max_retries) m =
       (match fetch_result w with
        | Payload content => Done (Some content)
        | _ => SystemExit 1
        end, record m evs).
Proof.
  rewrite fetch_attempts_run. unfold fetch_result, attempt_result.
  destruct (http_get w 0%nat) as [s0 c0 | |];
    [destruct (raise_for_status_raises s0) | | ];
    [ | | destruct (http_get w 1%nat) as [s1 c1 | |];
          [destruct (raise_for_status_raises s1) | | ];
          [ | | destruct (http_get w 2%nat) as [s2 c2 | |];
                [destruct (raise_for_status_raises s2) | | ] | ] | ];
    (eexists; split; [| reflexivity]); unfold no_writes; cbn; intuition discriminate.
Qed.

Lemma fetch_traffic_data_run (m : Machine) :
  exists evs,
    no_writes evs
    /\ fetch_traffic_data w m =
       (match fetch_result w with
        | Payload content =>
            match ParseFromString w content with
            | None => SystemExit 1
            | Some feed =>
                match filter Feed.HasField_vehicle feed with
                | [] => SystemExit 1
                | entity :: rest => Done (entity :: rest)
                end
            end
        | _ => SystemExit 1
        end, record m evs).
Proof.
  destruct (fetch_attempts_outcome m) as (evs & Hnw & Hrun).
  unfold fetch_traffic_data, bind. rewrite Hrun. clear Hrun.
  destruct (fetch_result w) as [content | |];
    try (exists evs; split; [assumption | reflexivity]).
  destruct (ParseFromString w content) as [feed |].
  - cbv [ret]. destruct (filter Feed.HasField_vehicle feed) as [| entity rest].
    + cbv [bind sys_exit]. rewrite log_run, record_record.
      eexists. split; [| reflexivity].
      apply no_writes_app. split; [assumption |].
      unfold no_writes. cbn. intuition discriminate.
    + cbv [bind ret]. rewrite log_run, record_record.
      eexists. split; [| reflexivity].
      apply no_writes_app. split; [assumption |].
      unfold no_writes. cbn. intuition discriminate.
  - cbv [bind sys_exit]. rewrite log_run, record_record.
    eexists. split; [| reflexivity].
    apply no_writes_app. split; [assumption |].
    unfold no_writes. cbn. intuition discriminate.
Qed.

Ltac run_ops :=
  cbv [bind ret sys_exit raise get log emit set_raw_store set_vehicle_count_store
       set_pollution_summary_store datetime_now];
  cbn [raw_store vehicle_count_store pollution_summary_store trace clock_reads].

Lemma process_vehicles_run (entities : list Feed.FeedEntity) (m : Machine) :
  exists evs,
    no_writes evs
    /\ process_vehicles w entities m =
       (match process_loop (utcoffset w) entities [] 0 with
        | inl e => Raised e
        | inr (rows, _) => Done (drop_duplicates rows)
        end, record m evs).
Proof.
  unfold process_vehicles.
  destruct (process_loop (utcoffset w) entities [] 0) as [e | [rows skipped]].
  - exists []. split; [unfold no_writes; cbn; tauto |].
    unfold raise, record. rewrite app_nil_r. now destruct m.
  - destruct (Nat.ltb 0 skipped); cbv [bind ret]; rewrite ?log_run, ?record_record;
      (eexists; split; [| reflexivity]); unfold no_writes; cbn; intuition discriminate.
Qed.

Lemma save_raw_data_run (df : list Row.t) (m : Machine) :
  exists m',
    save_raw_data w df m = (if raw_write_ok w then Done tt else SystemExit 1, m')
    /\ trace m' =
       trace m ++ [WriteRaw;
                   if raw_write_ok w then Log INFO (SavedRaw (List.length df))
                   else Log ERROR FailedToSaveRaw]
    /\ raw_store m' = (if raw_write_ok w then Some df else raw_store m)
    /\ vehicle_count_store m' = vehicle_count_store m
    /\ pollution_summary_store m' = pollution_summary_store m.
Proof.
  unfold save_raw_data. destruct (raw_write_ok w); run_ops;
    (eexists; split; [reflexivity |]);
    cbn [raw_store vehicle_count_store pollution_summary_store trace];
    rewrite <- ?app_assoc; auto.
Qed.

Lemma log_vehicle_count_run (df : list Row.t) (m : Machine) :
  exists m',
    log_vehicle_count w df m = (Done tt, m')
    /\ raw_store m' = raw_store m
    /\ pollution_summary_store m' = pollution_summary_store m
    /\ trace m' =
       trace m ++ [AppendVehicleCount;
                   if count_append_ok w
                   then Log INFO (LoggedVehicleCount (nunique_vehicle_id df))
                   else Log ERROR FailedToLogVehicleCount]
    /\ (if count_append_ok w
        then exists t,
            vehicle_count_store m'
            = Some (appended CountHeader (vehicle_count_store m)
                      (CountRow t (nunique_vehicle_id df)))
        else vehicle_count_store m' = vehicle_count_store m).
Proof.
  unfold log_vehicle_count. destruct (count_append_ok w); run_ops;
    (eexists; split; [reflexivity |]);
    cbn [raw_store vehicle_count_store pollution_summary_store trace];
    rewrite <- ?app_assoc; repeat split; auto.
  eexists. unfold appended. reflexivity.
Qed.

Lemma save_pollution_summary_run (df : list Row.t) (m : Machine) :
  exists m',
    save_pollution_summary w df m = (Done tt, m')
    /\ raw_store m' = raw_store m
    /\ vehicle_count_store m' = vehicle_count_store m
    /\ (if summary_write_ok w
        then exists s,
            pollution_summary_store m'
            = Some (appended SummaryHeader (pollution_summary_store m) (SummaryRow s))
            /\ summary_vehicle_count s = nunique_vehicle_id df
            /\ trace m' = trace m ++ [WritePollutionSummary;
                                      Log INFO SavedPollutionSummary;
                                      Log INFO (SummaryIs s)]
        else pollution_summary_store m' = pollution_summary_store m
             /\ trace m' = trace m ++ [WritePollutionSummary;
                                       Log ERROR FailedToSavePollutionSummary]).
Proof.
  unfold save_pollution_summary. destruct (summary_write_ok w); run_ops;
    (eexists; split; [reflexivity |]);
    cbn [raw_store vehicle_count_store pollution_summary_store trace];
    rewrite <- ?app_assoc; repeat split; auto.
  eexists. unfold appended. repeat split; reflexivity.
Qed.

Ltac trace_facts :=
  repeat match goal with
    | |- _ /\ _ => split
    | |- In _ _ => rewrite ?in_app_iff; cbn [In]; now auto 20
    | |- ~ In _ _ => rewrite ?in_app_iff; cbn [In]; intuition discriminate
    | |- no_writes _ =>
        unfold no_writes in *; rewrite ?in_app_iff; cbn [In]; intuition discriminate
    | |- stores _ = stores _ => reflexivity
    | |- _ = _ => reflexivity
    end.

Lemma split_here {A : Type} (x : A) (l : list A) (P : list A -> Prop) :
  P l -> exists before after, x :: l = before ++ x :: after /\ P after.
Proof. intros H. exists [], l. auto. Qed.

Lemma split_cons {A : Type} (x y : A) (l : list A) (P : list A -> Prop) :
  (exists before after, l = before ++ x :: after /\ P after) ->
  exists before after, y :: l = before ++ x :: after /\ P after.
Proof. intros (b & a & -> & H). exists (y :: b), a. auto. Qed.

Lemma split_app {A : Type} (x : A) (p l : list A) (P : list A -> Prop) :
  (exists before after, l = before ++ x :: after /\ P after) ->
  exists before after, p ++ l = before ++ x :: after /\ P after.
Proof. intros (b & a & -> & H). exists (p ++ b), a. now rewrite app_assoc. Qed.

Ltac split_trace :=
  rewrite <- ?app_assoc; cbn [app];
  repeat apply split_app;
  repeat first [ apply split_here; cbn [In]; now auto 20 | apply split_cons ].

Lemma main_run (m : Machine) :
  exists evs o m',
    main w m = (o, m')
    /\ trace m' = trace m ++ evs
    /\ exit_code o = match ending w with EndsCompleted _ => 0 | _ => 1 end
    /\ match ending w with
       | EndsCompleted df =>
           raw_store m' = Some df
           /\ In WriteRaw evs /\ In AppendVehicleCount evs
           /\ In WritePollutionSummary evs
           /\ In (Log INFO AllOperationsCompleted) evs
           /\ (if count_append_ok w
               then exists t,
                   vehicle_count_store m'
                   = Some (appended CountHeader (vehicle_count_store m)
                             (CountRow t (nunique_vehicle_id df)))
               else vehicle_count_store m' = vehicle_count_store m
                    /\ exists before after,
                        evs = before ++ Log ERROR FailedToLogVehicleCount :: after
                        /\ In WritePollutionSummary after)
           /\ (if summary_write_ok w
               then exists s,
                   pollution_summary_store m'
                   = Some (appended SummaryHeader (pollution_summary_store m)
                             (SummaryRow s))
                   /\ summary_vehicle_count s = nunique_vehicle_id df
               else pollution_summary_store m' = pollution_summary_store m
                    /\ In (Log ERROR FailedToSavePollutionSummary) evs)
       | EndsRawWriteFailed =>
           stores m' = stores m
           /\ In WriteRaw evs
           /\ ~ In AppendVehicleCount evs /\ ~ In WritePollutionSummary evs
           /\ In (Log ERROR FailedToSaveRaw) evs
       | EndsUnexpected e =>
           stores m' = stores m /\ no_writes evs
           /\ In (Log ERROR (UnexpectedError e)) evs
       | _ => stores m' = stores m /\ no_writes evs
       end.
Proof.
  destruct (fetch_traffic_data_run m) as (evs1 & Hnw & Hfetch).
  unfold main, try_except, bind. rewrite Hfetch. clear Hfetch. unfold ending.
  destruct (fetch_result w) as [content | |];
    try (exists evs1, (SystemExit 1), (record m evs1); now trace_facts).
  destruct (ParseFromString w content) as [feed |];
    try (exists evs1, (SystemExit 1), (record m evs1); now trace_facts).
  destruct (filter Feed.HasField_vehicle feed) as [| entity rest];
    try (exists evs1, (SystemExit 1), (record m evs1); now trace_facts).
  destruct (process_vehicles_run (entity :: rest) (record m evs1))
    as (evs2 & Hnw2 & Hproc).
  rewrite Hproc. clear Hproc. rewrite record_record.
  destruct (process_loop (utcoffset w) (entity :: rest) [] 0) as [e | [rows skipped]].
  { rewrite log_run. cbv [sys_exit]. rewrite record_record.
    do 3 eexists. split; [reflexivity |]. cbn [trace record exit_code].
    split; [reflexivity |]. unfold stores. cbn [record raw_store vehicle_count_store
      pollution_summary_store]. trace_facts. }
  destruct (drop_duplicates rows) as [| r df].
  { rewrite log_run. cbv [sys_exit]. rewrite record_record.
    do 3 eexists. split; [reflexivity |]. cbn [trace record exit_code].
    split; [reflexivity |]. unfold stores. cbn [record raw_store vehicle_count_store
      pollution_summary_store]. trace_facts. }
  set (m0 := record m (evs1 ++ evs2)).
  assert (trace m0 = trace m ++ evs1 ++ evs2) as Ht0 by reflexivity.
  assert (stores m0 = stores m) as Hs0 by reflexivity.
  clearbody m0.
  destruct (save_raw_data_run (r :: df) m0) as (m1 & Hrun1 & Ht1 & Hr1 & Hc1 & Hp1).
  rewrite Hrun1. clear Hrun1.
  unfold stores in *. injection Hs0 as Hr0 Hc0 Hp0.
  destruct (raw_write_ok w).
  2: { exists ((evs1 ++ evs2) ++ [WriteRaw; Log ERROR FailedToSaveRaw]),
         (SystemExit 1), m1.
       split; [reflexivity |]. split; [rewrite Ht1, Ht0, !app_assoc; reflexivity |].
       split; [reflexivity |]. unfold no_writes in *.
       split; [congruence |]. trace_facts. }
  destruct (log_vehicle_count_run (r :: df) m1) as (m2 & Hrun2 & Hr2 & Hp2 & Ht2 & Hc2).
  rewrite Hrun2. clear Hrun2.
  destruct (save_pollution_summary_run (r :: df) m2) as (m3 & Hrun3 & Hr3 & Hc3 & Hp3).
  rewrite Hrun3. clear Hrun3. rewrite log_run.
  destruct (summary_write_ok w), (count_append_ok w);
    repeat match goal with
      | H : exists _, _ |- _ => destruct H
      | H : _ /\ _ |- _ => destruct H
      end;
    do 3 eexists; (split; [reflexivity |]);
    cbn [trace record exit_code raw_store vehicle_count_store pollution_summary_store];
    repeat match goal with
      | H : trace ?x = _ |- context [trace ?x] => rewrite H
      | H : raw_store ?x = _ |- context [raw_store ?x] => rewrite H
      | H : vehicle_count_store ?x = _ |- context [vehicle_count_store ?x] => rewrite H
      | H : pollution_summary_store ?x = _ |- context [pollution_summary_store ?x] =>
          rewrite H
      end;
    (split; [rewrite <- !app_assoc; reflexivity |]);
    (split; [reflexivity |]);
    (split; [reflexivity |]);
    do 4 (split; [rewrite ?in_app_iff; cbn [In]; now auto 20 |]);
    (split;
     [ first [ eexists; reflexivity | split; [reflexivity | split_trace] ]
     | first [ eexists; split; [reflexivity | eassumption]
             | split; [reflexivity | rewrite ?in_app_iff; cbn [In]; now auto 20] ] ]).
Qed.

End RunFacts.

(** ** Validation *)

(** C1 (a defect of the code).  Validation is not a filter that never
    raises: a reading whose timestamp does not fit [time_t] makes
    [datetime.fromtimestamp] raise [OverflowError], which the loop does not
    catch.  The reading is neither dropped nor counted, the loop ends with the
    exception whatever came before and whatever follows, and a valid reading
    processed before it is lost with it. *)
Theorem process_loop_raises_on_unrepresentable_timestamp :
  DateTime.fromtimestamp (2 ^ 63) = inl OverflowError
  /\ (forall off rest rows skipped,
        process_loop off (overflowing_reading :: rest) rows skipped
        = inl OverflowError)
  /\ (exists row, process_entity IST valid_reading = Keep row)
  /\ process_loop IST [valid_reading; overflowing_reading] [] 0 = inl OverflowError.
Proof.
  split; [reflexivity |]. split; [| split].
  - intros off rest rows skipped. reflexivity.
  - eexists. vm_compute. reflexivity.
  - vm_compute. reflexivity.
Qed.

Lemma process_entity_handled (off : Z -> Z) (entity : Feed.FeedEntity) :
  (forall t, Feed.timestamp (Feed.get_vehicle entity) = Some t ->
             timestamp_handled off t) ->
  forall e, process_entity off entity <> Throw e.
Proof.
  intros Hts e. unfold process_entity.
  destruct (Feed.position (Feed.get_vehicle entity)) as [pos |]; [| discriminate].
  destruct (Feed.timestamp (Feed.get_vehicle entity)) as [t |]; [| discriminate].
  destruct (Hts t eq_refl) as [Hfit Hlocal].
  destruct (validate_location _ _); [| discriminate].
  destruct (validate_speed _); [| discriminate]. cbn [negb].
  unfold DateTime.fromtimestamp, DateTime.astimezone.
  destruct (Z.ltb_spec DateTime.TIME_T_MAX (Z.of_N t)); [lia |].
  destruct (Z.ltb_spec DateTime.GMTIME_MAX (Z.of_N t)); [discriminate |].
  destruct (Z.ltb_spec DateTime.MAX_EPOCH (Z.of_N t)); [discriminate |].
  specialize (Hlocal ltac:(lia)).
  destruct (Z.ltb_spec (Z.of_N t + off (Z.of_N t)) DateTime.MIN_EPOCH); [lia |].
  destruct (Z.ltb_spec DateTime.MAX_EPOCH (Z.of_N t + off (Z.of_N t))); [lia |].
  discriminate.
Qed.

(** X1.  When every timestamp of the feed is handled (it fits [time_t] and
    its local time is within the years 1..9999), validation returns and is a
    filter that counts what it drops: the rows are those of the entities that
    pass, in order; the counter is the number of entities dropped; every
    entity is either dropped, at the first check it fails, or kept, and then
    fails none. *)
Theorem validation_counts_what_it_drops (off : Z -> Z)
    (entities : list Feed.FeedEntity) :
  (forall entity t,
      In entity entities ->
      Feed.timestamp (Feed.get_vehicle entity) = Some t ->
      timestamp_handled off t) ->
  process_loop off entities [] 0 = inr (kept off entities, dropped off entities)
  /\ (List.length (kept off entities) + dropped off entities
      = List.length entities)%nat
  /\ (forall entity, In entity entities ->
        (exists site, process_entity off entity = Skip site /\ skipped_at entity site)
        \/ (exists row, process_entity off entity = Keep row
                        /\ forall site, ~ skipped_at entity site)).
Proof.
  intros Hts.
  assert (first_throw off entities = None) as Hnone.
  { apply first_throw_none. intros entity Hin.
    apply process_entity_handled. intros t. now apply Hts. }
  split; [| split].
  - rewrite process_loop_spec, Hnone. reflexivity.
  - now apply kept_plus_dropped.
  - intros entity Hin.
    destruct (process_entity off entity) as [site | row | e] eqn:Hstep.
    + left. exists site. split; [reflexivity |]. now apply (process_entity_skip off).
    + right. exists row. split; [reflexivity |].
      intros site Hsite. apply (process_entity_skip off) in Hsite. congruence.
    + exfalso. apply (proj1 (first_throw_none off entities) Hnone entity Hin e Hstep).
Qed.

(** Three sample readings in IST: one row is kept and two entities are
    counted. *)
Lemma validation_counts_what_it_drops_witness :
  process_loop IST [reading_without_timestamp; reading_out_of_area; valid_reading] [] 0
  = inr (kept IST [reading_without_timestamp; reading_out_of_area; valid_reading],
         dropped IST [reading_without_timestamp; reading_out_of_area; valid_reading]).
Proof.
  apply (validation_counts_what_it_drops IST
           [reading_without_timestamp; reading_out_of_area; valid_reading]).
  intros entity t [<- | [<- | [<- | []]]] Ht; try discriminate;
    injection Ht as <-; vm_compute; intuition discriminate.
Defined.

Lemma validate_location_round (lat lon : float) :
  validate_location lat lon = true ->
  validate_location (PyFloat.round lat 6) (PyFloat.round lon 6) = true.
Proof.
  unfold validate_location. rewrite !andb_true_iff.
  intros [[Hlat0 Hlat1] [Hlon0 Hlon1]].
  destruct (round_latitude_within lat Hlat0 Hlat1).
  destruct (round_longitude_within lon Hlon0 Hlon1). auto.
Qed.

Lemma validate_speed_round (speed : float) :
  validate_speed speed = true -> validate_speed (PyFloat.round speed 2) = true.
Proof.
  unfold validate_speed. rewrite !andb_true_iff. intros [H0 H1].
  now apply round_speed_within.
Qed.

Lemma ending_completed (w : World) (df : list Row.t) :
  ending w = EndsCompleted df ->
  raw_write_ok w = true
  /\ exists content feed rows skipped,
       fetch_result w = Payload content
       /\ ParseFromString w content = Some feed
       /\ process_loop (utcoffset w) (filter Feed.HasField_vehicle feed) [] 0
          = inr (rows, skipped)
       /\ df = drop_duplicates rows.
Proof.
  unfold ending.
  destruct (fetch_result w) as [content | |] eqn:Hfetch; try discriminate.
  destruct (ParseFromString w content) as [feed |] eqn:Hparse; try discriminate.
  destruct (filter Feed.HasField_vehicle feed) as [| entity rest] eqn:Hfilter;
    try discriminate.
  destruct (process_loop _ _ _ _) as [e | [rows skipped]] eqn:Hloop; try discriminate.
  destruct (drop_duplicates rows) as [| r l] eqn:Hdf; try discriminate.
  destruct (raw_write_ok w); try discriminate.
  intros H. injection H as <-. split; [reflexivity |].
  exists content, feed, rows, skipped. rewrite Hfilter. repeat split; auto.
Qed.

Lemma kept_rows_within_bounds (off : Z -> Z) (entities : list Feed.FeedEntity)
    (rows : list Row.t) (skipped : nat) (r : Row.t) :
  process_loop off entities [] 0 = inr (rows, skipped) ->
  In r (drop_duplicates rows) ->
  (exists entity pos,
      In entity entities
      /\ Feed.position (Feed.get_vehicle entity) = Some pos
      /\ validate_location (Feed.latitude pos) (Feed.longitude pos) = true
      /\ validate_speed (Feed.get_speed pos) = true
      /\ Row.latitude r = PyFloat.round (Feed.latitude pos) 6
      /\ Row.longitude r = PyFloat.round (Feed.longitude pos) 6
      /\ Row.speed_m_s r = PyFloat.round (Feed.get_speed pos) 2)
  /\ validate_location (Row.latitude r) (Row.longitude r) = true
  /\ validate_speed (Row.speed_m_s r) = true.
Proof.
  intros Hloop Hin.
  apply process_loop_returns in Hloop as (_ & -> & _).
  apply drop_duplicates_from_in in Hin as [Hin _].
  apply in_kept in Hin as (entity & Hentity & Hkeep).
  apply process_entity_keep in Hkeep
    as (pos & t & ts & local & Hpos & _ & Hloc & Hspeed & _ & _ & ->).
  split; [exists entity, pos; repeat split; auto |].
  cbn [row_of Row.latitude Row.longitude Row.speed_m_s].
  split; [now apply validate_location_round | now apply validate_speed_round].
Qed.

(** C2.  Every record that survives validation comes from a reading inside
    the latitude, longitude and speed bounds, and it is still inside them
    with its latitude and longitude rounded to 6 decimals and its speed to 2;
    so is every record a run writes to the raw store. *)
Theorem validated_records_within_bounds :
  (forall off entities rows skipped r,
      process_loop off entities [] 0 = inr (rows, skipped) ->
      In r (drop_duplicates rows) ->
      (exists entity pos,
          In entity entities
          /\ Feed.position (Feed.get_vehicle entity) = Some pos
          /\ validate_location (Feed.latitude pos) (Feed.longitude pos) = true
          /\ validate_speed (Feed.get_speed pos) = true
          /\ Row.latitude r = PyFloat.round (Feed.latitude pos) 6
          /\ Row.longitude r = PyFloat.round (Feed.longitude pos) 6
          /\ Row.speed_m_s r = PyFloat.round (Feed.get_speed pos) 2)
      /\ validate_location (Row.latitude r) (Row.longitude r) = true
      /\ validate_speed (Row.speed_m_s r) = true)
  /\ (forall w m,
        raw_store (snd (main w m)) = raw_store m
        \/ exists df,
            raw_store (snd (main w m)) = Some df
            /\ forall r, In r df ->
                 validate_location (Row.latitude r) (Row.longitude r) = true
                 /\ validate_speed (Row.speed_m_s r) = true).
Proof.
  split; [apply kept_rows_within_bounds |].
  intros w m.
  destruct (main_run w m) as (evs & o & m' & Hrun & _ & _ & Hend).
  rewrite Hrun. cbn [snd].
  destruct (ending w) as [| | | e | | | df] eqn:He;
    try (left; unfold stores in Hend; destruct Hend as [Hs _];
         now injection Hs as -> _ _).
  right. exists df. split; [apply Hend |].
  apply ending_completed in He as (_ & content & feed & rows & skipped & _ & _ & Hloop & ->).
  intros r Hin.
  now destruct (kept_rows_within_bounds _ _ _ _ r Hloop Hin) as (_ & ? & ?).
Qed.

(** The sample reading survives with its rounded values inside the bounds. *)
Lemma validated_records_within_bounds_witness :
  let r := row_of valid_reading (sample_position (Some 10.0%float))
             (DateTime.mkLocal 1700019800 19800) in
  validate_location (Row.latitude r) (Row.longitude r) = true
  /\ validate_speed (Row.speed_m_s r) = true.
Proof.
  intros r.
  refine (proj2 (proj1 validated_records_within_bounds IST [valid_reading] [r] 0%nat
                   r _ _)).
  - vm_compute. reflexivity.
  - vm_compute. left. reflexivity.
Defined.

(** ** Emission estimates *)

(** C3, as stated, fails: the estimates do not follow the speed the record
    carries.  The reading at 10.0078125 m/s is recorded with [speed_m_s]
    10.01 and a CO2 estimate of 660.52, whereas the formula applied to the
    recorded speed gives 660.66. *)
Lemma estimates_do_not_follow_recorded_speed :
  ~ (forall off entity row,
       process_entity off entity = Keep row ->
       forall p f, In (p, f) EMISSION_FACTORS ->
         Row.pollutant p row
         = Some (PyFloat.round (f * ((Row.speed_m_s row * lit_3_6) / 60.0))%float 2)).
Proof.
  intros H.
  specialize (H IST precise_reading _ eq_refl "CO2"%string 1100.0%float).
  assert (In ("CO2"%string, 1100.0%float) EMISSION_FACTORS) as Hin
    by (cbn; auto).
  specialize (H Hin).
  apply (f_equal (fun o => match o with
                           | Some x => (x =? 0x1.4a428f5c28f5cp+9)%float
                           | None => false
                           end)) in H.
  vm_compute in H. discriminate.
Qed.

(** C3, amended.  The estimates of a validated record follow the speed read
    from the feed (0.0 when absent), before it is rounded for the record:
    each equals [round(factor * (speed * 3.6 / 60.0), 2)]; the formula on the
    recorded [speed_m_s] gives the same when rounding leaves the speed as it
    is.  A feed of three entities, one without timestamp, one at latitude
    40.0 and one valid at 10 m/s, yields exactly one record, whose CO
    estimate is 3.6. *)
Theorem estimates_follow_feed_speed :
  (forall off entity row,
      process_entity off entity = Keep row ->
      exists pos,
        Feed.position (Feed.get_vehicle entity) = Some pos
        /\ Row.speed_m_s row = PyFloat.round (Feed.get_speed pos) 2
        /\ (forall p f, In (p, f) EMISSION_FACTORS ->
              Row.pollutant p row
              = Some (PyFloat.round
                        (f * ((Feed.get_speed pos * lit_3_6) / 60.0))%float 2))
        /\ (Row.speed_m_s row = Feed.get_speed pos ->
            forall p f, In (p, f) EMISSION_FACTORS ->
              Row.pollutant p row
              = Some (PyFloat.round
                        (f * ((Row.speed_m_s row * lit_3_6) / 60.0))%float 2)))
  /\ (forall off e1 e2 e3 p2 t3 ts3 local3,
        Feed.timestamp (Feed.get_vehicle e1) = None ->
        Feed.position (Feed.get_vehicle e2) = Some p2 ->
        Feed.latitude p2 = 40.0%float ->
        Feed.position (Feed.get_vehicle e3) = Some (sample_position (Some 10.0%float)) ->
        Feed.timestamp (Feed.get_vehicle e3) = Some t3 ->
        DateTime.fromtimestamp t3 = inr ts3 ->
        DateTime.astimezone off ts3 = inr local3 ->
        let row := row_of e3 (sample_position (Some 10.0%float)) local3 in
        process_loop off [e1; e2; e3] [] 0 = inr ([row], 2%nat)
        /\ drop_duplicates [row] = [row]
        /\ Row.pollutant "CO" row = Some lit_3_6).
Proof.
  split.
  - intros off entity row Hkeep.
    apply process_entity_keep in Hkeep
      as (pos & t & ts & local & Hpos & _ & _ & _ & _ & _ & ->).
    exists pos. split; [assumption |]. split; [reflexivity |].
    assert (forall p f, In (p, f) EMISSION_FACTORS ->
              Row.pollutant p (row_of entity pos local)
              = Some (PyFloat.round
                        (f * ((Feed.get_speed pos * lit_3_6) / 60.0))%float 2)) as Hest.
    { intros p f Hin. unfold Row.pollutant. cbn [row_of Row.emissions].
      now apply pollutant_estimate_emissions. }
    split; [exact Hest |].
    intros Hsame p f Hin. rewrite Hsame. now apply Hest.
  - intros off e1 e2 e3 p2 t3 ts3 local3 Ht1 Hp2 Hlat2 Hp3 Ht3 Hts3 Hlocal3 row.
    assert (process_entity off e1 = Skip MissingField) as H1.
    { unfold process_entity. rewrite Ht1.
      now destruct (Feed.position (Feed.get_vehicle e1)). }
    assert (exists site, process_entity off e2 = Skip site) as [site H2].
    { unfold process_entity. rewrite Hp2.
      destruct (Feed.timestamp (Feed.get_vehicle e2)); [| now eexists].
      unfold validate_location. rewrite Hlat2.
      replace ((LAT_MIN <=? 40.0)%float && (40.0 <=? LAT_MAX)%float) with false
        by reflexivity.
      cbn [andb negb]. now eexists. }
    assert (process_entity off e3 = Keep row) as H3.
    { apply (process_entity_valid off e3 _ t3 ts3 local3); auto. }
    split; [| split].
    + cbn [process_loop]. rewrite H1, H2, H3. reflexivity.
    + unfold drop_duplicates. reflexivity.
    + unfold row, Row.pollutant. cbn [row_of Row.emissions].
      vm_compute. reflexivity.
Qed.

(** The reading at 10 m/s in IST: its CO estimate is 3.6. *)
Lemma estimates_follow_feed_speed_witness :
  Row.pollutant "CO"
    (row_of valid_reading (sample_position (Some 10.0%float))
       (DateTime.mkLocal 1700019800 19800))
  = Some (PyFloat.round (6.0 * ((10.0 * lit_3_6) / 60.0))%float 2).
Proof.
  destruct (proj1 estimates_follow_feed_speed IST valid_reading
              (row_of valid_reading (sample_position (Some 10.0%float))
                 (DateTime.mkLocal 1700019800 19800)) eq_refl)
    as (pos & Hpos & _ & Hest & _).
  injection Hpos as <-.
  apply (Hest "CO"%string 6.0%float). cbn. auto.
Defined.

(** ** Deduplication *)

(** C4.  [drop_duplicates] keeps a row exactly when no earlier row has its
    (vehicle_id, timestamp) key, in the order of the input: the result is a
    subsequence of the input with distinct keys, in which every key is
    represented by its first row; two rows sharing the key reduce to the
    first; and applying it twice is applying it once. *)
Theorem drop_duplicates_keeps_first_occurrences :
  drop_duplicates [] = []
  /\ (forall rows r,
        drop_duplicates (rows ++ [r])
        = if existsb (Row.key_eqb (Row.key r)) (map Row.key rows)
          then drop_duplicates rows
          else drop_duplicates rows ++ [r])
  /\ (forall rows, subseq (drop_duplicates rows) rows)
  /\ (forall rows, NoDup (map Row.key (drop_duplicates rows)))
  /\ (forall rows k,
        find (fun r => Row.key_eqb k (Row.key r)) (drop_duplicates rows)
        = find (fun r => Row.key_eqb k (Row.key r)) rows)
  /\ (forall r1 r2,
        Row.vehicle_id r1 = Row.vehicle_id r2 ->
        Row.timestamp r1 = Row.timestamp r2 ->
        drop_duplicates [r1; r2] = [r1])
  /\ (forall rows, drop_duplicates (drop_duplicates rows) = drop_duplicates rows).
Proof.
  unfold drop_duplicates. repeat split.
  - intros rows r. rewrite drop_duplicates_from_snoc. cbn [app].
    destruct (existsb _ _); [apply app_nil_r | reflexivity].
  - intros rows. apply drop_duplicates_from_subseq.
  - intros rows. apply drop_duplicates_from_NoDup.
  - intros rows k. apply drop_duplicates_from_find. intros [].
  - intros r1 r2 Hid Hts. cbn [drop_duplicates_from existsb].
    unfold Row.key. rewrite Hid, Hts, key_eqb_refl. reflexivity.
  - intros rows. apply drop_duplicates_from_idempotent.
Qed.

(** ** Identity *)

Lemma str_or_empty (b : string) : str_or "" b = b.
Proof. reflexivity. Qed.

Lemma str_or_nonempty (a b : string) : a <> ""%string -> str_or a b = a.
Proof. unfold str_or. now destruct (String.eqb_spec a ""). Qed.

(** The identity as the or-chain leaves it: the entity's identifier, or
    "unknown" when that is empty. *)
Lemma resolve_vehicle_id_entity (entity : Feed.FeedEntity) :
  resolve_vehicle_id entity = str_or (Feed.id entity) "unknown".
Proof.
  unfold resolve_vehicle_id, opt_or, Feed.id_attr.
  destruct (string_dec (Feed.id entity) "") as [Hid | Hid].
  - rewrite Hid. reflexivity.
  - now rewrite !(str_or_nonempty _ _ Hid).
Qed.

(** C6 (a defect of the code).  The vehicle-level identifier is never used.
    The code looks for it with [getattr(v, "id", None)] on the
    [VehiclePosition], which has no such attribute: the identifier is
    [v.vehicle.id].  So a reading of the bus "BUS-42" carried by the entity
    "E9" is recorded under "E9"; the identity of every entity is its own
    identifier, or "unknown" when that is empty, whatever the feed says of
    the vehicle; and two different buses in entities without identifier are
    both "unknown".  The identity is never empty. *)
Theorem resolve_vehicle_id_ignores_the_vehicle_identifier :
  Feed.descriptor (Feed.get_vehicle reading_of_bus_42)
  = Some (Feed.mkDescriptor "BUS-42")
  /\ resolve_vehicle_id reading_of_bus_42 = "E9"%string
  /\ (forall id pos t d,
        resolve_vehicle_id (Feed.mkEntity id (Some (Feed.mkVehicle pos t d)))
        = if String.eqb id "" then "unknown"%string else id)
  /\ (forall pos t pos' t',
        resolve_vehicle_id
          (Feed.mkEntity "" (Some (Feed.mkVehicle pos t
                                     (Some (Feed.mkDescriptor "BUS-1")))))
        = resolve_vehicle_id
            (Feed.mkEntity "" (Some (Feed.mkVehicle pos' t'
                                       (Some (Feed.mkDescriptor "BUS-2"))))))
  /\ (forall entity, resolve_vehicle_id entity <> ""%string).
Proof.
  split; [reflexivity |]. split; [reflexivity |]. split; [| split].
  - intros id pos t d. rewrite resolve_vehicle_id_entity. reflexivity.
  - intros pos t pos' t'. reflexivity.
  - intros entity. rewrite resolve_vehicle_id_entity. unfold str_or.
    destruct (String.eqb_spec (Feed.id entity) ""); [discriminate | assumption].
Qed.

(** ** A reading without speed *)

(** C10 (a defect of the code).  A reading without speed that passes every
    check of the loop is not always kept.  Its speed reads as 0.0 and passes,
    and its timestamp, the last second of the year 9999, converts; but the
    local time in a zone east of UTC lies in the year 10000, [astimezone]
    raises [OverflowError] outside the [try], and the loop ends with the
    exception: the reading is neither kept nor counted, and the valid reading
    before it is lost. *)
Theorem absent_speed_reading_raises_in_local_time :
  Feed.position (Feed.get_vehicle reading_without_speed_in_9999)
  = Some (sample_position None)
  /\ Feed.timestamp (Feed.get_vehicle reading_without_speed_in_9999)
     = Some 253402300799%N
  /\ validate_location (Feed.latitude (sample_position None))
       (Feed.longitude (sample_position None)) = true
  /\ Feed.get_speed (sample_position None) = 0.0%float
  /\ validate_speed (Feed.get_speed (sample_position None)) = true
  /\ DateTime.fromtimestamp 253402300799 = inr 253402300799
  /\ (forall off, 0 < off 253402300799 ->
        process_entity off reading_without_speed_in_9999 = Throw OverflowError)
  /\ process_entity IST reading_without_speed_in_9999 = Throw OverflowError
  /\ (forall rest rows skipped,
        process_loop IST (reading_without_speed_in_9999 :: rest) rows skipped
        = inl OverflowError)
  /\ process_loop IST [valid_reading; reading_without_speed_in_9999] [] 0
     = inl OverflowError.
Proof.
  assert (forall off, 0 < off 253402300799 ->
            process_entity off reading_without_speed_in_9999 = Throw OverflowError)
    as Hthrow.
  { intros off Hoff. unfold process_entity.
    cbn [reading_without_speed_in_9999 reading Feed.get_vehicle Feed.vehicle
         Feed.position Feed.timestamp].
    replace (validate_location _ _) with true by (vm_compute; reflexivity).
    replace (validate_speed _) with true by (vm_compute; reflexivity).
    cbn [negb].
    replace (DateTime.fromtimestamp 253402300799) with (@inr exn Z 253402300799)
      by reflexivity.
    unfold DateTime.astimezone.
    replace (DateTime.MAX_EPOCH <? 253402300799 + off 253402300799) with true
      by (symmetry; apply Z.ltb_lt; unfold DateTime.MAX_EPOCH; lia).
    rewrite orb_true_r. reflexivity. }
  assert (process_entity IST reading_without_speed_in_9999 = Throw OverflowError)
    as Hist by (apply Hthrow; reflexivity).
  split; [reflexivity |]. split; [reflexivity |].
  split; [vm_compute; reflexivity |]. split; [reflexivity |].
  split; [vm_compute; reflexivity |]. split; [reflexivity |].
  split; [exact Hthrow |]. split; [exact Hist |]. split.
  - intros rest rows skipped. cbn [process_loop]. now rewrite Hist.
  - cbn [process_loop].
    replace (process_entity IST valid_reading)
      with (Keep (row_of valid_reading (sample_position (Some 10.0%float))
                    (DateTime.mkLocal 1700019800 19800)))
      by (vm_compute; reflexivity).
    now rewrite Hist.
Qed.

(** X19.  An entity with position and timestamp, a valid location and a
    timestamp that converts, also to local time, but no speed, is kept and
    not counted as skipped; its row has speed 0.0 and all four estimates are
    0.0. *)
Theorem absent_speed_defaults_to_zero (off : Z -> Z) (entity : Feed.FeedEntity)
    (pos : Feed.Position) (t : N) (ts : Z) (local : DateTime.Local) :
  Feed.position (Feed.get_vehicle entity) = Some pos ->
  Feed.timestamp (Feed.get_vehicle entity) = Some t ->
  Feed.speed pos = None ->
  validate_location (Feed.latitude pos) (Feed.longitude pos) = true ->
  DateTime.fromtimestamp t = inr ts ->
  DateTime.astimezone off ts = inr local ->
  exists row,
    process_entity off entity = Keep row
    /\ Row.speed_m_s row = 0.0%float
    /\ (forall p f, In (p, f) EMISSION_FACTORS -> Row.pollutant p row = Some 0.0%float)
    /\ (forall rest rows skipped,
          process_loop off (entity :: rest) rows skipped
          = process_loop off rest (rows ++ [row]) skipped).
Proof.
  intros Hpos Ht Hspeed Hloc Hts Hlocal.
  assert (Feed.get_speed pos = 0.0%float) as Hzero
    by (unfold Feed.get_speed; now rewrite Hspeed).
  assert (process_entity off entity = Keep (row_of entity pos local)) as Hkeep.
  { apply (process_entity_valid off entity pos t ts local); auto.
    rewrite Hzero. reflexivity. }
  exists (row_of entity pos local). split; [assumption |].
  cbn [row_of Row.speed_m_s]. rewrite Hzero.
  split; [vm_compute; reflexivity |]. split.
  - intros p f Hin. unfold Row.pollutant. cbn [row_of Row.emissions].
    rewrite (pollutant_estimate_emissions _ p f Hin), Hzero.
    destruct Hin as [H | [H | [H | [H | []]]]]; injection H as <- <-;
      vm_compute; reflexivity.
  - intros rest rows skipped. cbn [process_loop]. now rewrite Hkeep.
Qed.

(** The sample reading without speed, in IST. *)
Lemma absent_speed_defaults_to_zero_witness :
  exists row,
    process_entity IST reading_without_speed = Keep row
    /\ Row.speed_m_s row = 0.0%float
    /\ (forall p f, In (p, f) EMISSION_FACTORS -> Row.pollutant p row = Some 0.0%float)
    /\ (forall rest rows skipped,
          process_loop IST (reading_without_speed :: rest) rows skipped
          = process_loop IST rest (rows ++ [row]) skipped).
Proof.
  apply (absent_speed_defaults_to_zero IST reading_without_speed
           (sample_position None) 1700000000%N 1700000000
           (DateTime.mkLocal 1700019800 19800));
    vm_compute; reflexivity.
Defined.

(** ** Exit codes and persistence *)

Lemma main_exit_code_ending (w : World) (m : Machine) :
  exit_code (fst (main w m)) = match ending w with EndsCompleted _ => 0 | _ => 1 end.
Proof.
  destruct (main_run w m) as (evs & o & m' & Hrun & _ & Hcode & _).
  now rewrite Hrun.
Qed.

(** C7, as stated, fails: the run over a feed holding the valid sample
    reading and the reading with the unrepresentable timestamp exits with
    code 1, although the fetch and the decoding succeed, a record is valid
    and the raw store is never written. *)
Lemma exit_code_one_outside_listed_conditions :
  let w := sample_world always_ok [valid_reading; overflowing_reading] true true true in
  exit_code (fst (main w empty_machine)) = 1
  /\ ~ (fetch_failed w \/ decode_failed w \/ no_valid_records w \/ raw_write_failed w)
  /\ kept (utcoffset w) [valid_reading; overflowing_reading] <> [].
Proof.
  intros w.
  assert (ending w = EndsUnexpected OverflowError) as He by (vm_compute; reflexivity).
  split; [rewrite main_exit_code_ending, He; reflexivity |]. split.
  - unfold fetch_failed, decode_failed, no_valid_records, raw_write_failed.
    rewrite He. intuition discriminate.
  - vm_compute. discriminate.
Qed.

(** C7, amended.  The exit code is 0 or 1; it is 1 exactly when the fetch
    fails, the decoding fails or finds no vehicle, an exception reaches the
    handler of [main], no valid record remains, or the raw store cannot be
    written, and 0 exactly when the run completes; whether the two appends
    succeed does not change it. *)
Theorem main_exit_code (w : World) (m : Machine) :
  (exit_code (fst (main w m)) = 0 \/ exit_code (fst (main w m)) = 1)
  /\ (exit_code (fst (main w m)) = 1 <->
      fetch_failed w \/ decode_failed w \/ unexpected_error w
      \/ no_valid_records w \/ raw_write_failed w)
  /\ (exit_code (fst (main w m)) = 0 <-> exists df, ending w = EndsCompleted df)
  /\ (forall count summary,
        exit_code (fst (main (with_appends w count summary) m))
        = exit_code (fst (main w m))).
Proof.
  split; [| split; [| split]].
  - rewrite main_exit_code_ending. destruct (ending w); auto.
  - rewrite main_exit_code_ending.
    unfold fetch_failed, decode_failed, unexpected_error, no_valid_records,
      raw_write_failed.
    destruct (ending w) as [| | | e | | | df]; split; intros H; auto 10;
      try discriminate; try (right; right; left; now exists e).
    destruct H as [H | [[H | H] | [[e H] | [H | H]]]]; discriminate.
  - rewrite main_exit_code_ending.
    destruct (ending w) as [| | | e | | | df]; split; intros H;
      try discriminate; try (destruct H; discriminate); eauto.
  - intros count summary. rewrite !main_exit_code_ending. reflexivity.
Qed.

(** C8.  When all three attempts time out, and whenever the fetch or the
    decoding fails, the run exits with code 1, attempts no write and leaves
    the three stores as they were. *)
Theorem fetch_or_decode_failure_writes_nothing (w : World) (m : Machine) :
  exists evs,
    trace (snd (main w m)) = trace m ++ evs
    /\ ((forall b, (b < 3)%nat -> http_get w b = Timeout) ->
        exit_code (fst (main w m)) = 1
        /\ stores (snd (main w m)) = stores m /\ no_writes evs)
    /\ (fetch_failed w \/ decode_failed w ->
        exit_code (fst (main w m)) = 1
        /\ stores (snd (main w m)) = stores m /\ no_writes evs).
Proof.
  destruct (main_run w m) as (evs & o & m' & Hrun & Htrace & Hcode & Hend).
  rewrite Hrun. cbn [fst snd]. exists evs. split; [assumption |].
  assert (fetch_failed w \/ decode_failed w ->
          exit_code o = 1 /\ stores m' = stores m /\ no_writes evs) as Hfail.
  { unfold fetch_failed, decode_failed. rewrite Hcode.
    intros [H | [H | H]]; rewrite H in *; tauto. }
  split; [| assumption].
  intros Hall. apply Hfail. left. unfold fetch_failed, ending, fetch_result.
  now rewrite !Hall by lia.
Qed.

(** C9.  When the run reaches the stores and the raw store is written, a
    failure to append the vehicle count is logged and nothing more: the
    pollution summary is attempted after it, and appended when its own write
    succeeds, and the run exits with code 0. *)
Theorem count_append_failure_is_not_fatal (w : World) (m : Machine)
    (df : list Row.t) :
  ending w = EndsCompleted df ->
  count_append_ok w = false ->
  exists evs,
    trace (snd (main w m)) = trace m ++ evs
    /\ exit_code (fst (main w m)) = 0
    /\ raw_store (snd (main w m)) = Some df
    /\ vehicle_count_store (snd (main w m)) = vehicle_count_store m
    /\ (exists before after,
          evs = before ++ Log ERROR FailedToLogVehicleCount :: after
          /\ In WritePollutionSummary after)
    /\ (summary_write_ok w = true ->
        exists s,
          pollution_summary_store (snd (main w m))
          = Some (appended SummaryHeader (pollution_summary_store m) (SummaryRow s)))
    /\ In (Log INFO AllOperationsCompleted) evs.
Proof.
  intros Hend Hcount.
  destruct (main_run w m) as (evs & o & m' & Hrun & Htrace & Hcode & Hfacts).
  rewrite Hrun. cbn [fst snd]. rewrite Hend, Hcount in *.
  destruct Hfacts as (Hraw & _ & _ & _ & Hdone & [Hstore Horder] & Hsummary).
  exists evs. repeat split; auto.
  intros Hok. rewrite Hok in Hsummary. destruct Hsummary as (s & Hs & _). eauto.
Qed.

(** The sample run whose vehicle-count append fails still exits with 0. *)
Lemma count_append_failure_is_not_fatal_witness :
  exit_code (fst (main (sample_world always_ok [valid_reading] true false true)
                    empty_machine)) = 0.
Proof.
  destruct (count_append_failure_is_not_fatal
              (sample_world always_ok [valid_reading] true false true) empty_machine
              [row_of valid_reading (sample_position (Some 10.0%float))
                 (DateTime.mkLocal 1700019800 19800)])
    as (evs & _ & Hcode & _).
  - vm_compute. reflexivity.
  - reflexivity.
  - exact Hcode.
Defined.

(** * Further properties *)

(** ** More on removing duplicates *)

Lemma drop_duplicates_from_length (rows : list Row.t) :
  forall seen, (List.length (drop_duplicates_from seen rows) <= List.length rows)%nat.
Proof.
  induction rows as [| r rest IH]; intros seen; simpl; [lia |].
  destruct (existsb _ _); simpl; [specialize (IH seen) | specialize (IH (Row.key r :: seen))];
    lia.
Qed.

(** X2.  [drop_duplicates] never lengthens the frame; it leaves the frame as
    it is exactly when the keys of its rows are distinct; and it yields the
    empty frame only for the empty frame. *)
Theorem drop_duplicates_changes_only_duplicates (rows : list Row.t) :
  (List.length (drop_duplicates rows) <= List.length rows)%nat
  /\ (drop_duplicates rows = rows <-> NoDup (map Row.key rows))
  /\ (drop_duplicates rows = [] <-> rows = []).
Proof.
  unfold drop_duplicates. split; [apply drop_duplicates_from_length |]. split.
  - split.
    + intros H. rewrite <- H. apply drop_duplicates_from_NoDup.
    + intros H. apply drop_duplicates_from_fixed; [assumption | intros r _ []].
  - split; [| intros ->; reflexivity].
    destruct rows as [| r rest]; [reflexivity |]. cbn. discriminate.
Qed.

(** ** The distinct vehicle count *)

Lemma nunique_vehicle_id_bounds (df : list Row.t) :
  (nunique_vehicle_id df <= List.length df)%nat
  /\ (df <> [] -> (1 <= nunique_vehicle_id df)%nat).
Proof.
  unfold nunique_vehicle_id. split.
  - rewrite <- (length_map Row.vehicle_id df).
    apply NoDup_incl_length; [apply NoDup_nodup |].
    intros x Hx. now apply nodup_In in Hx.
  - destruct df as [| r rest]; [congruence |]. intros _.
    assert (In (Row.vehicle_id r) (nodup string_dec (map Row.vehicle_id (r :: rest)))) as H
      by (apply nodup_In; now left).
    destruct (nodup string_dec (map Row.vehicle_id (r :: rest))); [contradiction |].
    simpl. lia.
Qed.

Lemma nodup_length_incl (l l' : list string) :
  incl l l' -> (List.length (nodup string_dec l) <= List.length (nodup string_dec l'))%nat.
Proof.
  intros H. apply NoDup_incl_length; [apply NoDup_nodup |].
  intros x Hx. apply nodup_In. apply H. now apply nodup_In in Hx.
Qed.

Lemma drop_duplicates_from_ids (rows : list Row.t) :
  forall seen id,
    In id (map Row.vehicle_id rows) ->
    (forall r, In r rows -> Row.vehicle_id r = id -> ~ In (Row.key r) seen) ->
    In id (map Row.vehicle_id (drop_duplicates_from seen rows)).
Proof.
  induction rows as [| x rest IH]; intros seen id Hin Hseen; [contradiction |].
  cbn [drop_duplicates_from].
  destruct (string_dec (Row.vehicle_id x) id) as [Hx | Hx].
  - replace (existsb (Row.key_eqb (Row.key x)) seen) with false
      by (symmetry; apply key_not_seen_iff; apply Hseen; [now left | assumption]).
    left. assumption.
  - assert (In id (map Row.vehicle_id rest)) as Hrest
      by (destruct Hin as [H | H]; [congruence | assumption]).
    destruct (existsb (Row.key_eqb (Row.key x)) seen).
    + apply IH; [assumption |]. intros r Hr. apply Hseen. now right.
    + right. apply IH; [assumption |].
      intros r Hr Hid [Hk | Hk]; [| apply (Hseen r); [now right | assumption | assumption]].
      apply Hx. unfold Row.key in Hk. injection Hk as Hk _. congruence.
Qed.

(** X3.  Removing duplicates loses no vehicle: the frame has the same
    distinct vehicle identities before and after, so the count the run logs
    is that of the validated rows; it is at most the number of rows, and at
    least 1 for a frame that is not empty. *)
Theorem vehicle_count_survives_deduplication (rows : list Row.t) :
  (forall id, In id (map Row.vehicle_id (drop_duplicates rows))
              <-> In id (map Row.vehicle_id rows))
  /\ nunique_vehicle_id (drop_duplicates rows) = nunique_vehicle_id rows
  /\ (nunique_vehicle_id rows <= List.length rows)%nat
  /\ (rows <> [] -> (1 <= nunique_vehicle_id rows)%nat).
Proof.
  assert (forall id, In id (map Row.vehicle_id (drop_duplicates rows))
                     <-> In id (map Row.vehicle_id rows)) as Hids.
  { intros id. split.
    - rewrite !in_map_iff. intros (r & Hid & Hin).
      apply drop_duplicates_from_in in Hin as [Hin _]. eauto.
    - intros Hin. apply drop_duplicates_from_ids; [assumption | intros r _ _ []]. }
  split; [exact Hids |]. split.
  - unfold nunique_vehicle_id.
    apply Nat.le_antisymm; apply nodup_length_incl; intros id; apply Hids.
  - apply nunique_vehicle_id_bounds.
Qed.

(** ** Which readings deduplication merges *)

Lemma kept_row_timestamp (off : Z -> Z) (entity : Feed.FeedEntity) (row : Row.t) (t : N) :
  process_entity off entity = Keep row ->
  Feed.timestamp (Feed.get_vehicle entity) = Some t ->
  Row.vehicle_id row = resolve_vehicle_id entity
  /\ Row.timestamp row
     = DateTime.mkLocal (Z.of_N t + off (Z.of_N t)) (off (Z.of_N t)).
Proof.
  intros Hkeep Ht.
  apply process_entity_keep in Hkeep
    as (pos & t' & ts & local & _ & Ht' & _ & _ & Hts & Hlocal & ->).
  rewrite Ht in Ht'. injection Ht' as <-.
  assert (ts = Z.of_N t) as ->.
  { unfold DateTime.fromtimestamp in Hts.
    repeat match type of Hts with
           | (if ?c then _ else _) = _ => destruct c; try discriminate
           end.
    now injection Hts as <-. }
  unfold DateTime.astimezone in Hlocal.
  destruct (_ || _); [discriminate |]. injection Hlocal as <-.
  split; reflexivity.
Qed.

(** X4.  Two kept readings carry the same timestamp text exactly when they
    were taken at the same epoch second, whatever the zone does; so
    deduplication merges two readings exactly when they resolve to the same
    vehicle identity at the same second.  Two vehicles without any identifier
    both resolve to "unknown" and are merged when their seconds agree. *)
Theorem deduplication_merges_same_vehicle_same_second (off : Z -> Z)
    (e1 e2 : Feed.FeedEntity) (r1 r2 : Row.t) (t1 t2 : N) :
  process_entity off e1 = Keep r1 ->
  process_entity off e2 = Keep r2 ->
  Feed.timestamp (Feed.get_vehicle e1) = Some t1 ->
  Feed.timestamp (Feed.get_vehicle e2) = Some t2 ->
  (Row.timestamp r1 = Row.timestamp r2 <-> t1 = t2)
  /\ (resolve_vehicle_id e1 = resolve_vehicle_id e2 /\ t1 = t2 ->
      drop_duplicates [r1; r2] = [r1])
  /\ (resolve_vehicle_id e1 <> resolve_vehicle_id e2 \/ t1 <> t2 ->
      drop_duplicates [r1; r2] = [r1; r2])
  /\ (Feed.id_attr (Feed.get_vehicle e1) = None /\ Feed.id e1 = ""%string
      /\ Feed.id_attr (Feed.get_vehicle e2) = None /\ Feed.id e2 = ""%string
      /\ t1 = t2 ->
      drop_duplicates [r1; r2] = [r1]).
Proof.
  intros Hk1 Hk2 Ht1 Ht2.
  destruct (kept_row_timestamp off e1 r1 t1 Hk1 Ht1) as [Hid1 Hts1].
  destruct (kept_row_timestamp off e2 r2 t2 Hk2 Ht2) as [Hid2 Hts2].
  assert (Row.timestamp r1 = Row.timestamp r2 <-> t1 = t2) as Hsame.
  { rewrite Hts1, Hts2. split; [| intros ->; reflexivity].
    intros H. injection H as Hwall Hoff. apply N2Z.inj. lia. }
  assert (resolve_vehicle_id e1 = resolve_vehicle_id e2 /\ t1 = t2 ->
          drop_duplicates [r1; r2] = [r1]) as Hmerge.
  { intros [Hid Ht]. unfold drop_duplicates. cbn [drop_duplicates_from existsb].
    unfold Row.key. rewrite Hid2, <- Hid, <- Hid1, (proj2 Hsame Ht), key_eqb_refl.
    reflexivity. }
  split; [exact Hsame |]. split; [exact Hmerge |]. split.
  - intros Hdiff. unfold drop_duplicates. cbn [drop_duplicates_from existsb].
    replace (Row.key_eqb (Row.key r2) (Row.key r1) || false) with false; [reflexivity |].
    symmetry. rewrite orb_false_r.
    destruct (Row.key_eqb (Row.key r2) (Row.key r1)) eqn:Hk; [| reflexivity].
    apply key_eqb_eq in Hk. unfold Row.key in Hk. injection Hk as Hid Hts.
    exfalso. destruct Hdiff as [Hd | Hd]; [apply Hd; congruence |].
    apply Hd. apply Hsame. congruence.
  - intros (Ha1 & Hi1 & Ha2 & Hi2 & Ht). apply Hmerge. split; [| assumption].
    unfold resolve_vehicle_id. now rewrite Ha1, Hi1, Ha2, Hi2.
Qed.

(** ** The pollutant columns *)


(** ** What the two checks accept *)

Lemma Some_inj {A : Type} (a b : A) : Some a = Some b -> a = b.
Proof. congruence. Qed.

Lemma valid_finite_bounds (s : bool) (m : positive) (e : Z) :
  valid_binary (S754_finite s m e) = true ->
  -1074 <= e /\ Z.pos m < 2 ^ 53 /\ (-1074 < e -> 2 ^ 52 <= Z.pos m).
Proof.
  unfold valid_binary, SpecFloat.valid_binary, bounded, canonical_mantissa.
  rewrite digits2_pos_size. unfold fexp, SpecFloat.emin, prec, emax.
  intros H. apply andb_true_iff in H as [H _]. apply Z.eqb_eq in H.
  pose proof (Zpos_lt_pow_size m) as Hlt.
  pose proof (pow_size_le m) as Hle.
  assert (2 ^ Z.pos (Pos.size m) <= 2 ^ 53) by (apply Z.pow_le_mono_r; lia).
  split; [lia |]. split; [lia |].
  intros He. assert (Z.pos (Pos.size m) = 53) as Hs by lia.
  rewrite Hs in Hle. change (2 ^ 53) with (2 * 2 ^ 52) in Hle. lia.
Qed.

Lemma scaled_lt (m m1 : positive) (e e1 : Z) :
  valid_binary (S754_finite false m e) = true ->
  valid_binary (S754_finite false m1 e1) = true ->
  e < e1 ->
  Z.pos m * 2 ^ (e + 1074) < Z.pos m1 * 2 ^ (e1 + 1074).
Proof.
  intros Hv Hv1 Hlt.
  apply valid_finite_bounds in Hv as (He & Hm & _).
  apply valid_finite_bounds in Hv1 as (He1 & _ & Hm1).
  specialize (Hm1 ltac:(lia)).
  replace (e1 + 1074) with ((e + 1074) + (e1 - e)) by lia.
  rewrite (Z.pow_add_r 2 (e + 1074) (e1 - e)) by lia.
  pose proof (Z.pow_pos_nonneg 2 (e + 1074) ltac:(lia) ltac:(lia)) as HP.
  assert (2 ^ 1 <= 2 ^ (e1 - e)) as HQ by (apply Z.pow_le_mono_r; lia).
  change (2 ^ 1) with 2 in HQ. change (2 ^ 53) with (2 * 2 ^ 52) in Hm.
  revert HP HQ Hm Hm1. generalize (2 ^ (e + 1074)) (2 ^ (e1 - e)) (2 ^ 52).
  intros P Q T HP HQ Hm Hm1.
  assert (Z.pos m * P < 2 * Z.pos m1 * P) by nia.
  assert (2 * (Z.pos m1 * P) <= Q * (Z.pos m1 * P)) by nia.
  lia.
Qed.

(** On doubles, the order of [<=] is the order of the values. *)
Lemma SFleb_scaled (m m1 : positive) (e e1 : Z) :
  valid_binary (S754_finite false m e) = true ->
  valid_binary (S754_finite false m1 e1) = true ->
  SFleb (S754_finite false m e) (S754_finite false m1 e1) = true
  <-> Z.pos m * 2 ^ (e + 1074) <= Z.pos m1 * 2 ^ (e1 + 1074).
Proof.
  intros Hv Hv1.
  destruct (Z.compare_spec e e1) as [Heq | Hlt | Hgt].
  - subst e1. rewrite SFleb_same_exponent.
    pose proof (valid_finite_bounds _ _ _ Hv) as (He & _ & _).
    pose proof (Z.pow_pos_nonneg 2 (e + 1074) ltac:(lia) ltac:(lia)) as HP.
    split; intros H; nia.
  - pose proof (scaled_lt m m1 e e1 Hv Hv1 Hlt).
    unfold SFleb, SFcompare. rewrite (proj2 (Z.compare_lt_iff e e1) Hlt).
    split; [lia | reflexivity].
  - pose proof (scaled_lt m1 m e1 e Hv1 Hv Hgt).
    unfold SFleb, SFcompare. rewrite (proj2 (Z.compare_gt_iff e e1) Hgt).
    split; [discriminate | lia].
Qed.

Lemma scaled_positive (m : positive) (e : Z) :
  -1074 <= e -> 0 < Z.pos m * 2 ^ (e + 1074).
Proof.
  intros He. pose proof (Z.pow_pos_nonneg 2 (e + 1074) ltac:(lia) ltac:(lia)). nia.
Qed.

(** A double between two positive finite doubles. *)
Lemma between_finite (lo hi x : float) (m0 m1 : positive) (e0 e1 : Z) :
  Prim2SF lo = S754_finite false m0 e0 ->
  Prim2SF hi = S754_finite false m1 e1 ->
  ((lo <=? x)%float && (x <=? hi)%float = true
   <-> exists v, scaled_value (Prim2SF x) = Some v
                 /\ Z.pos m0 * 2 ^ (e0 + 1074) <= v <= Z.pos m1 * 2 ^ (e1 + 1074)).
Proof.
  intros Hlo Hhi.
  pose proof (Prim2SF_valid lo) as Hvlo. pose proof (Prim2SF_valid hi) as Hvhi.
  pose proof (Prim2SF_valid x) as Hvx.
  rewrite Hlo in Hvlo. rewrite Hhi in Hvhi.
  rewrite andb_true_iff, !leb_spec, Hlo, Hhi.
  pose proof (valid_finite_bounds _ _ _ Hvlo) as (He0 & _ & _).
  pose proof (scaled_positive m0 e0 He0) as Hpos0.
  destruct (Prim2SF x) as [s | s | | [] m e]; unfold scaled_value.
  - split; [intros [H _]; discriminate | intros (v & Hv & Hle)].
    apply Some_inj in Hv; subst v. lia.
  - split; [intros [H1 H2]; destruct s; discriminate | intros (v & Hv & _); discriminate].
  - split; [intros [H _]; discriminate | intros (v & Hv & _); discriminate].
  - pose proof (valid_finite_bounds _ _ _ Hvx) as (He & _ & _).
    pose proof (scaled_positive m e He) as Hpos.
    split; [intros [H _]; discriminate | intros (v & Hv & Hle)].
    apply Some_inj in Hv; subst v. lia.
  - rewrite !SFleb_scaled by assumption. split.
    + intros [H1 H2]. eexists. split; [reflexivity |]. lia.
    + intros (v & Hv & Hle). apply Some_inj in Hv; subst v. lia.
Qed.

(** X6.  What the two checks accept, exactly.  A speed passes when it is a
    zero of either sign or a finite value up to 30; a position passes when its
    latitude is a finite value from 28.5 up to the double nearest 28.8 (which
    lies [7.1e-16] above 28.8) and its longitude one from 77 up to the double
    nearest 77.4.  NaN and the infinities never pass.  The values are
    compared exactly, in units of [2^-1074]. *)
Theorem checks_accept_exactly_the_finite_values_in_range (lat lon speed : float) :
  (validate_speed speed = true
   <-> exists v, scaled_value (Prim2SF speed) = Some v /\ 0 <= v <= 30 * 2 ^ 1074)
  /\ (validate_location lat lon = true
      <-> exists a b,
          scaled_value (Prim2SF lat) = Some a
          /\ scaled_value (Prim2SF lon) = Some b
          /\ 57 * 2 ^ 1073 <= a <= 8106479329266893 * 2 ^ 1026
          /\ 77 * 2 ^ 1074 <= b <= 5446540799351194 * 2 ^ 1028).
Proof.
  split.
  - unfold validate_speed.
    pose proof (Prim2SF_valid speed) as Hv.
    rewrite andb_true_iff, !leb_spec, Prim2SF_zero, Prim2SF_SPEED_MAX.
    assert (valid_binary (S754_finite false 8444249301319680 (-48)) = true) as Hmax
      by (vm_compute; reflexivity).
    assert (8444249301319680 * 2 ^ (-48 + 1074) = 30 * 2 ^ 1074) as Heq
      by (vm_compute; reflexivity).
    destruct (Prim2SF speed) as [s | s | | [] m e]; unfold scaled_value.
    + split; [intros _; exists 0; split; [reflexivity |]; split; [lia |];
              vm_compute; discriminate
             | intros _; split; reflexivity].
    + split; [intros [H1 H2]; destruct s; discriminate
             | intros (v & Hv' & _); discriminate].
    + split; [intros [H _]; discriminate | intros (v & Hv' & _); discriminate].
    + pose proof (valid_finite_bounds _ _ _ Hv) as (He & _ & _).
      pose proof (scaled_positive m e He) as Hpos.
      split; [intros [H1 _]; discriminate | intros (v & Hv' & Hle)].
      apply Some_inj in Hv'; subst v. lia.
    + pose proof (valid_finite_bounds _ _ _ Hv) as (He & _ & _).
      pose proof (scaled_positive m e He) as Hpos.
      rewrite SFleb_scaled, Heq by assumption. split.
      * intros [_ H2]. eexists. split; [reflexivity |]. lia.
      * intros (v & Hv' & Hle). apply Some_inj in Hv'; subst v. split; [reflexivity | lia].
  - unfold validate_location. rewrite andb_true_iff.
    rewrite (between_finite LAT_MIN LAT_MAX lat 8022036836253696 8106479329266893
               (-48) (-48)) by (vm_compute; reflexivity).
    rewrite (between_finite LON_MIN LON_MAX lon 5418393301680128 5446540799351194
               (-46) (-46)) by (vm_compute; reflexivity).
    replace (8022036836253696 * 2 ^ (-48 + 1074)) with (57 * 2 ^ 1073)
      by (vm_compute; reflexivity).
    replace (5418393301680128 * 2 ^ (-46 + 1074)) with (77 * 2 ^ 1074)
      by (vm_compute; reflexivity).
    change (-48 + 1074) with 1026. change (-46 + 1074) with 1028.
    split.
    + intros [(a & Ha & Hla) (b & Hb & Hlb)]. exists a, b. auto.
    + intros (a & b & Ha & Hb & Hla & Hlb). split; eauto.
Qed.

(** ** Signs through the float operations *)

Lemma shr_1_nonneg (mrs : shr_record) : 0 <= shr_m mrs -> 0 <= shr_m (shr_1 mrs).
Proof.
  destruct mrs as [m r s]. cbn [shr_m]. intros H.
  destruct m as [| [p | p |] | p]; cbn; lia.
Qed.

Lemma iter_shr_1_nonneg (p : positive) :
  forall mrs, 0 <= shr_m mrs -> 0 <= shr_m (iter_pos shr_1 p mrs).
Proof.
  induction p as [p IH | p IH |]; intros mrs H; cbn [iter_pos];
    auto using shr_1_nonneg.
Qed.

Lemma shr_fexp_nonneg (m e : Z) (l : location) :
  0 <= m -> 0 <= shr_m (fst (shr_fexp prec emax m e l)).
Proof.
  intros H. unfold shr_fexp, shr.
  assert (0 <= shr_m (shr_record_of_loc m l)) by now rewrite shr_record_of_loc_m.
  destruct (fexp prec emax (Zdigits2 m + e) - e); cbn [fst]; auto using iter_shr_1_nonneg.
Qed.

Lemma round_nearest_even_nonneg (m : Z) (l : location) :
  0 <= m -> 0 <= round_nearest_even m l.
Proof. intros H. destruct (round_nearest_even_cases m l) as [-> | ->]; lia. Qed.

Lemma binary_round_aux_nonneg (m e : Z) (l : location) :
  0 <= m -> nonneg_sf (binary_round_aux prec emax false m e l).
Proof.
  intros H. unfold binary_round_aux.
  pose proof (shr_fexp_nonneg m e l H) as H1.
  destruct (shr_fexp prec emax m e l) as [mrs' e']. cbn [fst] in H1.
  pose proof (shr_fexp_nonneg _ e' loc_Exact
                (round_nearest_even_nonneg _ (loc_of_shr_record mrs') H1)) as H2.
  destruct (shr_fexp prec emax _ e' loc_Exact) as [mrs'' e'']. cbn [fst] in H2.
  destruct (shr_m mrs'') as [| p | p]; [exact I | | lia].
  destruct (e'' <=? emax - prec); exact I.
Qed.

Lemma binary_round_nonneg (m : positive) (e : Z) :
  nonneg_sf (binary_round prec emax false m e).
Proof.
  unfold binary_round. destruct (shl_align _ _ _) as [mz ez].
  apply binary_round_aux_nonneg. lia.
Qed.

Lemma SFmul_nonneg_l (x : spec_float) (m : positive) (e : Z) :
  nonneg_sf x -> nonneg_sf (SFmul prec emax x (S754_finite false m e)).
Proof.
  destruct x as [s | [] | | [] mx ex]; cbn [nonneg_sf SFmul xorb]; try tauto.
  intros _. apply binary_round_aux_nonneg. lia.
Qed.

Lemma SFmul_nonneg_r (x : spec_float) (m : positive) (e : Z) :
  nonneg_sf x -> nonneg_sf (SFmul prec emax (S754_finite false m e) x).
Proof.
  destruct x as [s | [] | | [] mx ex]; cbn [nonneg_sf SFmul xorb]; try tauto.
  intros _. apply binary_round_aux_nonneg. lia.
Qed.

Lemma SFdiv_core_nonneg (m1 e1 m2 e2 : Z) :
  0 <= m1 -> 0 < m2 -> 0 <= fst (fst (SFdiv_core_binary prec emax m1 e1 m2 e2)).
Proof.
  intros H1 H2. unfold SFdiv_core_binary.
  set (s := e1 - e2 - _).
  assert (0 <= match s with Z.pos _ => Z.shiftl m1 s | 0 => m1 | Z.neg _ => 0 end) as Hm.
  { destruct s eqn:Hs; try lia. apply Z.shiftl_nonneg. assumption. }
  revert Hm. generalize (match s with Z.pos _ => Z.shiftl m1 s | 0 => m1 | Z.neg _ => 0 end).
  intros m' Hm.
  pose proof (Z.div_pos m' m2 Hm H2) as Hq. unfold Z.div in Hq.
  destruct (Z.div_eucl m' m2) as [q r]. exact Hq.
Qed.

Lemma SFdiv_nonneg (x : spec_float) (m : positive) (e : Z) :
  nonneg_sf x -> nonneg_sf (SFdiv prec emax x (S754_finite false m e)).
Proof.
  destruct x as [s | [] | | [] mx ex]; cbn [nonneg_sf SFdiv xorb]; try tauto.
  intros _.
  pose proof (SFdiv_core_nonneg (Z.pos mx) ex (Z.pos m) e ltac:(lia) ltac:(lia)) as H.
  destruct (SFdiv_core_binary prec emax (Z.pos mx) ex (Z.pos m) e) as [[mz ez] lz].
  apply binary_round_aux_nonneg. exact H.
Qed.

Lemma Prim2SF_SF2Prim_nonneg (x : spec_float) :
  nonneg_sf x -> nonneg_sf (Prim2SF (SF2Prim x)).
Proof.
  destruct x as [[] | [] | | [] m e]; cbn [nonneg_sf]; try tauto; intros _;
    try (vm_compute; exact I).
  unfold SF2Prim, Z.ldexp. rewrite ldshiftexp_spec, of_uint63_spec.
  pose proof (Uint63.to_Z_bounded (Uint63.of_Z (Z.pos m))) as Hb.
  destruct (Uint63.to_Z (Uint63.of_Z (Z.pos m))) as [| p | p]; [exact I | | lia].
  cbn [binary_normalize].
  pose proof (binary_round_nonneg p 0) as Hr.
  destruct (binary_round prec emax false p 0) as [s | [] | | [] mx ex];
    cbn [nonneg_sf SFldexp] in *; try tauto.
  apply binary_round_nonneg.
Qed.

Lemma round_nonneg (x : float) (ndigits : Z) :
  0 <= ndigits ->
  nonneg_sf (Prim2SF x) -> nonneg_sf (Prim2SF (PyFloat.round x ndigits)).
Proof.
  intros Hk H. unfold PyFloat.round.
  destruct (323 <? ndigits); [assumption |].
  destruct (Prim2SF x) as [s | [] | | [] m e] eqn:Hx; cbn [nonneg_sf] in H;
    try tauto; try (rewrite Hx; exact I).
  assert (0 <= PyFloat.scaled_nearest m e ndigits) as Hn.
  { unfold PyFloat.scaled_nearest.
    pose proof (Z.pow_nonneg 10 ndigits ltac:(lia)).
    destruct (0 <=? e) eqn:He.
    - apply Z.leb_le in He. pose proof (Z.pow_nonneg 2 e ltac:(lia)). nia.
    - apply Z.leb_gt in He.
      apply round_half_even_div_lower; [apply Z.pow_pos_nonneg; lia | nia]. }
  unfold PyFloat.decimal_to_float.
  destruct (PyFloat.scaled_nearest m e ndigits) as [| n | n] eqn:Hs; [| | lia].
  - vm_compute. exact I.
  - pose proof (SFdiv_core_nonneg (Z.pos n) 0 (10 ^ ndigits) 0 ltac:(lia)
                  ltac:(apply Z.pow_pos_nonneg; lia)) as Hq.
    destruct (SFdiv_core_binary prec emax (Z.pos n) 0 (10 ^ ndigits) 0) as [[q e'] l].
    apply Prim2SF_SF2Prim_nonneg, binary_round_aux_nonneg. exact Hq.
Qed.

Lemma nonneg_leb_zero (x : float) :
  nonneg_sf (Prim2SF x) <-> (0.0 <=? x)%float = true.
Proof.
  rewrite leb_spec, Prim2SF_zero.
  destruct (Prim2SF x) as [s | [] | | [] m e]; cbn; intuition discriminate.
Qed.

Lemma estimate_nonneg (f speed : float) (m : positive) (e : Z) :
  Prim2SF f = S754_finite false m e ->
  (0.0 <=? speed)%float = true ->
  (0.0 <=? PyFloat.round (f * distance_km speed)%float 2)%float = true.
Proof.
  intros Hf Hs. apply nonneg_leb_zero, round_nonneg; [lia |].
  rewrite mul_spec, Hf. apply SFmul_nonneg_r.
  unfold distance_km. rewrite div_spec.
  replace (Prim2SF 60.0) with (S754_finite false 8444249301319680 (-47))
    by (vm_compute; reflexivity).
  apply SFdiv_nonneg. rewrite mul_spec.
  replace (Prim2SF lit_3_6) with (S754_finite false 8106479329266893 (-51))
    by (vm_compute; reflexivity).
  apply SFmul_nonneg_l. now apply nonneg_leb_zero.
Qed.

(** X7.  No estimate is negative or NaN: for every row that survives
    validation, whatever its speed within the bounds, each of the four
    pollutant estimates [e] satisfies [0.0 <= e]. *)
Theorem estimates_are_never_negative (off : Z -> Z) (entity : Feed.FeedEntity)
    (row : Row.t) (p : string) (e : float) :
  process_entity off entity = Keep row ->
  Row.pollutant p row = Some e ->
  (0.0 <=? e)%float = true.
Proof.
  intros Hkeep He.
  apply process_entity_keep in Hkeep
    as (pos & t & ts & local & _ & _ & _ & Hspeed & _ & _ & ->).
  unfold validate_speed in Hspeed. apply andb_true_iff in Hspeed as [Hs _].
  unfold Row.pollutant in He. cbn [row_of Row.emissions] in He.
  unfold estimate_emissions, EMISSION_FACTORS in He. cbn [map fst snd Row.lookup] in He.
  repeat match type of He with
         | (if ?c then _ else _) = _ => destruct c
         end;
    try discriminate; injection He as <-;
    eapply estimate_nonneg; try eassumption; vm_compute; reflexivity.
Qed.

(** The CO estimate of the sample reading is not negative. *)
Lemma estimates_are_never_negative_witness :
  (0.0 <=? PyFloat.round (6.0 * distance_km 10.0)%float 2)%float = true.
Proof.
  apply (estimates_are_never_negative IST valid_reading
           (row_of valid_reading (sample_position (Some 10.0%float))
              (DateTime.mkLocal 1700019800 19800)) "CO"%string).
  - vm_compute. reflexivity.
  - reflexivity.
Defined.

Section TraceFacts.

Variable w : World.

Ltac run_ops :=
  cbv [bind ret sys_exit raise get log emit set_raw_store set_vehicle_count_store
       set_pollution_summary_store datetime_now];
  cbn [raw_store vehicle_count_store pollution_summary_store trace clock_reads].

Ltac split_last :=
  match goal with
  | |- context [record ?m ?l] =>
      let init := eval cbn [removelast] in (removelast l) in
      exists init
  end.

Lemma fetch_attempts_last (m : Machine) :
  exists evs lvl msg,
    no_writes evs
    /\ fetch_attempts w (seq 0 max_retries) m =
       (match fetch_result w with
        | Payload content => Done (Some content)
        | _ => SystemExit 1
        end, record m (evs ++ [Log lvl msg]))
    /\ match fetch_result w with
       | Payload _ => lvl = INFO /\ exists n, msg = ApiRequestSuccessful n
       | FetchTimeout => lvl = ERROR /\ msg = MaxRetriesExceeded
       | FetchRequestFailed => lvl = ERROR /\ msg = ApiRequestFailed
       end.
Proof.
  rewrite fetch_attempts_run. unfold fetch_result, attempt_result.
  destruct (http_get w 0%nat) as [s0 c0 | |];
    [destruct (raise_for_status_raises s0) | | ];
    [ | | destruct (http_get w 1%nat) as [s1 c1 | |];
          [destruct (raise_for_status_raises s1) | | ];
          [ | | destruct (http_get w 2%nat) as [s2 c2 | |];
                [destruct (raise_for_status_raises s2) | | ] | ] | ];
    split_last; do 2 eexists;
    (split; [unfold no_writes; cbn; intuition discriminate |]);
    (split; [cbn [app]; reflexivity |]); eauto.
Qed.

Lemma fetch_traffic_data_last (m : Machine) :
  exists evs lvl msg,
    no_writes evs
    /\ fetch_traffic_data w m =
       (match fetch_result w with
        | Payload content =>
            match ParseFromString w content with
            | None => SystemExit 1
            | Some feed =>
                match filter Feed.HasField_vehicle feed with
                | [] => SystemExit 1
                | entity :: rest => Done (entity :: rest)
                end
            end
        | _ => SystemExit 1
        end, record m (evs ++ [Log lvl msg]))
    /\ match fetch_result w with
       | Payload content =>
           match ParseFromString w content with
           | None => lvl = ERROR /\ msg = FailedToParseProtobuf
           | Some feed =>
               match filter Feed.HasField_vehicle feed with
               | [] => lvl = ERROR /\ msg = NoVehiclesFound
               | entity :: rest =>
                   lvl = INFO /\ msg = FetchedVehicles (List.length (entity :: rest))
               end
           end
       | FetchTimeout => lvl = ERROR /\ msg = MaxRetriesExceeded
       | FetchRequestFailed => lvl = ERROR /\ msg = ApiRequestFailed
       end.
Proof.
  destruct (fetch_attempts_last m) as (evs & lvl & msg & Hnw & Hrun & Hlast).
  unfold fetch_traffic_data, bind. rewrite Hrun. clear Hrun.
  assert (no_writes (evs ++ [Log lvl msg])) as Hnw'.
  { apply no_writes_app. split; [assumption |].
    unfold no_writes. cbn. intuition discriminate. }
  destruct (fetch_result w) as [content | |];
    try (exists evs, lvl, msg; split; [assumption | split; [reflexivity | assumption]]).
  destruct (ParseFromString w content) as [feed |].
  - cbv [ret]. destruct (filter Feed.HasField_vehicle feed) as [| entity rest];
      cbv [bind sys_exit ret]; rewrite log_run, record_record;
      (eexists; do 2 eexists; split; [exact Hnw' |]; split; [reflexivity |]); auto.
  - cbv [bind sys_exit]. rewrite log_run, record_record.
    eexists; do 2 eexists. split; [exact Hnw' |]. split; [reflexivity |]. auto.
Qed.

Lemma process_vehicles_eq (entities : list Feed.FeedEntity) (m : Machine) :
  process_vehicles w entities m =
  match process_loop (utcoffset w) entities [] 0 with
  | inl e => (Raised e, m)
  | inr (rows, skipped) =>
      (Done (drop_duplicates rows),
       record m ((if Nat.ltb 0 skipped then [Log INFO (SkippedInvalid skipped)] else [])
                 ++ [Log INFO (ProcessingComplete (List.length (drop_duplicates rows)))]))
  end.
Proof.
  unfold process_vehicles.
  destruct (process_loop (utcoffset w) entities [] 0) as [e | [rows skipped]];
    [reflexivity |].
  destruct (Nat.ltb 0 skipped); cbv [bind ret]; rewrite ?log_run, ?record_record;
    reflexivity.
Qed.

Lemma save_raw_data_eq (df : list Row.t) (m : Machine) :
  save_raw_data w df m =
  if raw_write_ok w
  then (Done tt,
        mkMachine (Some df) (vehicle_count_store m) (pollution_summary_store m)
          (trace m ++ [WriteRaw; Log INFO (SavedRaw (List.length df))]) (clock_reads m))
  else (SystemExit 1, record m [WriteRaw; Log ERROR FailedToSaveRaw]).
Proof.
  unfold save_raw_data, record. destruct (raw_write_ok w); run_ops;
    rewrite <- ?app_assoc; reflexivity.
Qed.

Lemma log_vehicle_count_eq (df : list Row.t) (m : Machine) :
  log_vehicle_count w df m =
  (Done tt,
   if count_append_ok w
   then mkMachine (raw_store m)
          (Some (appended CountHeader (vehicle_count_store m)
                   (CountRow (now w (clock_reads m)) (nunique_vehicle_id df))))
          (pollution_summary_store m)
          (trace m ++ [AppendVehicleCount;
                       Log INFO (LoggedVehicleCount (nunique_vehicle_id df))])
          (S (clock_reads m))
   else record m [AppendVehicleCount; Log ERROR FailedToLogVehicleCount]).
Proof.
  unfold log_vehicle_count, record, appended. destruct (count_append_ok w); run_ops;
    rewrite <- ?app_assoc; reflexivity.
Qed.

Lemma save_pollution_summary_eq (df : list Row.t) (m : Machine) :
  save_pollution_summary w df m =
  (Done tt,
   mkMachine (raw_store m) (vehicle_count_store m)
     (if summary_write_ok w
      then Some (appended SummaryHeader (pollution_summary_store m)
                   (SummaryRow (summary_of w df (now w (clock_reads m)))))
      else pollution_summary_store m)
     (trace m ++ WritePollutionSummary ::
        (if summary_write_ok w
         then [Log INFO SavedPollutionSummary;
               Log INFO (SummaryIs (summary_of w df (now w (clock_reads m))))]
         else [Log ERROR FailedToSavePollutionSummary]))
     (S (clock_reads m))).
Proof.
  unfold save_pollution_summary, appended, summary_of. destruct (summary_write_ok w);
    run_ops; rewrite <- ?app_assoc; reflexivity.
Qed.

(** A completed run, in full. *)
Lemma main_completed_eq (m : Machine) (df : list Row.t) :
  ending w = EndsCompleted df ->
  exists pre,
    no_writes pre
    /\ (exists before, pre = before ++ [Log INFO (ProcessingComplete (List.length df))])
    /\ main w m =
       (Done tt,
        mkMachine (Some df)
          (if count_append_ok w
           then Some (appended CountHeader (vehicle_count_store m)
                        (CountRow (now w (clock_reads m)) (nunique_vehicle_id df)))
           else vehicle_count_store m)
          (if summary_write_ok w
           then Some (appended SummaryHeader (pollution_summary_store m)
                        (SummaryRow
                           (summary_of w df
                              (now w (if count_append_ok w then S (clock_reads m)
                                      else clock_reads m)))))
           else pollution_summary_store m)
          (trace m ++ pre
           ++ persist_events w df
                (now w (if count_append_ok w then S (clock_reads m)
                        else clock_reads m)))
          (if count_append_ok w then S (S (clock_reads m)) else S (clock_reads m))).
Proof.
  destruct (fetch_traffic_data_last m) as (evs1 & lvl & msg & Hnw & Hfetch & _).
  unfold main, try_except, bind. rewrite Hfetch. clear Hfetch. unfold ending.
  destruct (fetch_result w) as [content | |]; try discriminate.
  destruct (ParseFromString w content) as [feed |]; try discriminate.
  destruct (filter Feed.HasField_vehicle feed) as [| entity rest]; try discriminate.
  rewrite process_vehicles_eq.
  destruct (process_loop (utcoffset w) (entity :: rest) [] 0) as [e | [rows skipped]];
    try discriminate.
  destruct (drop_duplicates rows) as [| r l]; try discriminate.
  rewrite record_record, save_raw_data_eq.
  destruct (raw_write_ok w); try discriminate.
  intros H. injection H as <-.
  exists ((evs1 ++ [Log lvl msg])
          ++ (if Nat.ltb 0 skipped then [Log INFO (SkippedInvalid skipped)] else [])
          ++ [Log INFO (ProcessingComplete (List.length (r :: l)))]).
  split.
  { rewrite !no_writes_app. split; [split; [assumption |] |];
      [unfold no_writes; cbn; intuition discriminate |].
    destruct (Nat.ltb 0 skipped); unfold no_writes; cbn; intuition discriminate. }
  split; [eexists; rewrite app_assoc; reflexivity |].
  unfold record. cbn [raw_store vehicle_count_store pollution_summary_store trace
                      clock_reads].
  rewrite log_vehicle_count_eq.
  destruct (count_append_ok w) eqn:Hcount; unfold record;
    cbn [raw_store vehicle_count_store pollution_summary_store trace clock_reads];
    rewrite save_pollution_summary_eq;
    cbn [raw_store vehicle_count_store pollution_summary_store trace clock_reads];
    rewrite log_run; unfold record, persist_events;
    cbn [raw_store vehicle_count_store pollution_summary_store trace clock_reads];
    rewrite ?Hcount;
    destruct (summary_write_ok w); rewrite <- ?app_assoc; cbn [app];
    rewrite <- ?app_assoc; cbn [app]; reflexivity.
Qed.


Lemma main_failed_eq (m : Machine) :
  completes w = false ->
  exists evs,
    main w m = (SystemExit 1, record m (evs ++ [final_log w]))
    /\ ~ In AppendVehicleCount evs /\ ~ In WritePollutionSummary evs
    /\ (In WriteRaw evs <-> ending w = EndsRawWriteFailed).
Proof.
  destruct (fetch_traffic_data_last m) as (evs1 & lvl & msg & Hnw & Hfetch & Hlast).
  unfold main, try_except, bind. rewrite Hfetch. clear Hfetch.
  unfold completes, final_log, ending.
  destruct Hnw as (Hn1 & Hn2 & Hn3).
  destruct (fetch_result w) as [content | |];
    try (destruct Hlast as [-> ->]; intros _; exists evs1;
         split; [reflexivity |]; repeat split; try assumption;
         [intros H; contradiction | discriminate]).
  destruct (ParseFromString w content) as [feed |];
    try (destruct Hlast as [-> ->]; intros _; exists evs1;
         split; [reflexivity |]; repeat split; try assumption;
         [intros H; contradiction | discriminate]).
  destruct (filter Feed.HasField_vehicle feed) as [| entity rest];
    try (destruct Hlast as [-> ->]; intros _; exists evs1;
         split; [reflexivity |]; repeat split; try assumption;
         [intros H; contradiction | discriminate]).
  destruct Hlast as [-> ->].
  rewrite process_vehicles_eq.
  destruct (process_loop (utcoffset w) (entity :: rest) [] 0) as [e | [rows skipped]].
  { intros _. rewrite log_run. cbv [sys_exit]. rewrite record_record.
    eexists. split; [reflexivity |].
    rewrite !in_app_iff. cbn [In].
    repeat split; try discriminate; intuition discriminate. }
  destruct (drop_duplicates rows) as [| r l].
  { intros _. rewrite log_run. cbv [sys_exit]. rewrite !record_record.
    eexists. split; [rewrite app_assoc; reflexivity |].
    destruct (Nat.ltb 0 skipped); rewrite !in_app_iff; cbn [In];
      repeat split; try discriminate; intuition discriminate. }
  rewrite record_record, save_raw_data_eq.
  destruct (raw_write_ok w); [discriminate |]. intros _.
  rewrite record_record.
  exists (((evs1 ++ [Log INFO (FetchedVehicles (List.length (entity :: rest)))])
           ++ (if Nat.ltb 0 skipped then [Log INFO (SkippedInvalid skipped)] else [])
           ++ [Log INFO (ProcessingComplete (List.length (r :: l)))]) ++ [WriteRaw]).
  split; [rewrite <- !app_assoc; reflexivity |].
  destruct (Nat.ltb 0 skipped); rewrite !in_app_iff; cbn [In];
    repeat split; try discriminate; auto; intuition discriminate.
Qed.

End TraceFacts.

(** ** When validation raises *)

Lemma process_entity_throw (off : Z -> Z) (entity : Feed.FeedEntity) (e : exn) :
  process_entity off entity = Throw e <-> e = OverflowError /\ raises_at off entity.
Proof.
  assert (DateTime.MAX_EPOCH < DateTime.GMTIME_MAX) as Hc1 by (vm_compute; reflexivity).
  assert (DateTime.GMTIME_MAX < DateTime.TIME_T_MAX) as Hc2 by (vm_compute; reflexivity).
  unfold process_entity, raises_at. cbv zeta.
  destruct (Feed.position (Feed.get_vehicle entity)) as [pos |] eqn:Hpos.
  2: { split; [discriminate | intros (_ & pos & t & H & _); discriminate]. }
  destruct (Feed.timestamp (Feed.get_vehicle entity)) as [t |] eqn:Ht.
  2: { split; [discriminate | intros (_ & pos' & t & _ & H & _); discriminate]. }
  destruct (validate_location _ _) eqn:Hloc; cbn [negb].
  2: { split; [discriminate |].
       intros (_ & pos' & t' & Hp & _ & Hl & _). injection Hp as <-. congruence. }
  destruct (validate_speed _) eqn:Hspeed; cbn [negb].
  2: { split; [discriminate |].
       intros (_ & pos' & t' & Hp & _ & _ & Hs & _). injection Hp as <-. congruence. }
  assert (forall P : Prop,
             (exists pos' t', Some pos = Some pos' /\ Some t = Some t'
                              /\ validate_location (Feed.latitude pos') (Feed.longitude pos')
                                 = true
                              /\ validate_speed (Feed.get_speed pos') = true
                              /\ ~ timestamp_handled off t')
             <-> ~ timestamp_handled off t) as Hex.
  { intros _. split.
    - intros (pos' & t' & Hp & Ht' & _ & _ & Hn). now injection Ht' as <-.
    - intros Hn. exists pos, t. auto. }
  rewrite (Hex True). clear Hex.
  unfold DateTime.fromtimestamp, DateTime.astimezone, timestamp_handled.
  destruct (Z.ltb_spec DateTime.TIME_T_MAX (Z.of_N t)).
  { split; [intros H'; injection H' as <-; split; [reflexivity | lia]
           | intros [-> _]; reflexivity]. }
  destruct (Z.ltb_spec DateTime.GMTIME_MAX (Z.of_N t)).
  { split; [discriminate | intros [_ Hn]; exfalso; apply Hn; lia]. }
  destruct (Z.ltb_spec DateTime.MAX_EPOCH (Z.of_N t)).
  { split; [discriminate | intros [_ Hn]; exfalso; apply Hn; lia]. }
  destruct (Z.ltb_spec (Z.of_N t + off (Z.of_N t)) DateTime.MIN_EPOCH); cbn [orb].
  { split; [intros H'; injection H' as <-; split; [reflexivity | lia]
           | intros [-> _]; reflexivity]. }
  destruct (Z.ltb_spec DateTime.MAX_EPOCH (Z.of_N t + off (Z.of_N t))).
  { split; [intros H'; injection H' as <-; split; [reflexivity | lia]
           | intros [-> _]; reflexivity]. }
  split; [discriminate | intros [_ Hn]; exfalso; apply Hn; lia].
Qed.

(** X8.  Validation raises exactly when some reading that passes the
    presence, location and speed checks carries a timestamp the loop body does
    not handle: one that does not fit [time_t], or one whose local time leaves
    the years 1..9999.  The exception is always [OverflowError]; no other
    exception leaves the loop. *)
Theorem validation_raises_exactly_on_unhandled_timestamps (off : Z -> Z)
    (entities : list Feed.FeedEntity) (e : exn) :
  process_loop off entities [] 0 = inl e
  <-> e = OverflowError /\ exists entity, In entity entities /\ raises_at off entity.
Proof.
  rewrite process_loop_spec.
  assert (first_throw off entities = Some e
          <-> e = OverflowError
              /\ exists entity, In entity entities /\ raises_at off entity) as H.
  { induction entities as [| entity rest IH]; cbn [first_throw].
    - split; [discriminate | intros (_ & x & [] & _)].
    - destruct (process_entity off entity) as [site | row | e'] eqn:Hstep.
      + rewrite IH. split.
        * intros (-> & x & Hin & Hx). split; [reflexivity |]. exists x. split; [now right | assumption].
        * intros (-> & x & [<- | Hin] & Hx); [| split; [reflexivity | eauto]].
          assert (process_entity off entity = Throw OverflowError) as Ht
            by (apply process_entity_throw; auto).
          congruence.
      + rewrite IH. split.
        * intros (-> & x & Hin & Hx). split; [reflexivity |]. exists x. split; [now right | assumption].
        * intros (-> & x & [<- | Hin] & Hx); [| split; [reflexivity | eauto]].
          assert (process_entity off entity = Throw OverflowError) as Ht
            by (apply process_entity_throw; auto).
          congruence.
      + apply process_entity_throw in Hstep as [-> Hr]. split.
        * intros H. injection H as <-. split; [reflexivity |].
          exists entity. split; [now left | assumption].
        * intros [-> _]. reflexivity. }
  destruct (first_throw off entities) as [e' |].
  - rewrite <- H. split; intros H'; injection H' as <-; reflexivity.
  - split; [discriminate |]. intros H'. apply H in H'. discriminate.
Qed.

(** ** The fetch *)

(** X9.  [fetch_traffic_data] either returns or exits with code 1; it never
    raises and touches no store.  What it returns is never empty: it is the
    entities with a vehicle of the feed decoded from the payload of the first
    attempt that does not time out, in feed order, and their number is the
    last thing logged.  When it exits, the last thing logged is an error. *)
Theorem fetch_traffic_data_returns_only_vehicles (w : World) (m : Machine) :
  exists evs o,
    fetch_traffic_data w m = (o, record m evs)
    /\ no_writes evs
    /\ match o with
       | Done entities =>
           entities <> []
           /\ Forall (fun entity => Feed.HasField_vehicle entity = true) entities
           /\ (exists content feed,
                 fetch_result w = Payload content
                 /\ ParseFromString w content = Some feed
                 /\ entities = filter Feed.HasField_vehicle feed)
           /\ exists before,
               evs = before ++ [Log INFO (FetchedVehicles (List.length entities))]
       | SystemExit code =>
           code = 1 /\ exists before msg, evs = before ++ [Log ERROR msg]
       | Raised _ => False
       end.
Proof.
  destruct (fetch_traffic_data_last w m) as (evs & lvl & msg & Hnw & Hrun & Hlast).
  eexists. eexists. split; [exact Hrun |].
  split.
  { apply no_writes_app. split; [assumption |].
    unfold no_writes. cbn. intuition discriminate. }
  destruct (fetch_result w) as [content | |];
    try (destruct Hlast as [-> ->]; split; [reflexivity | eauto]).
  destruct (ParseFromString w content) as [feed |] eqn:Hparse;
    try (destruct Hlast as [-> ->]; split; [reflexivity | eauto]).
  destruct (filter Feed.HasField_vehicle feed) as [| entity rest] eqn:Hfilter;
    try (destruct Hlast as [-> ->]; split; [reflexivity | eauto]).
  destruct Hlast as [-> ->].
  split; [discriminate |]. split.
  { rewrite <- Hfilter. apply Forall_forall. intros x Hx.
    now apply filter_In in Hx. }
  split; [exists content, feed; auto | eauto].
Qed.

Section AttemptFacts.

Variable w : World.

Ltac fetch_cases :=
  destruct (http_get w 0%nat) as [s0 c0 | |] eqn:H0;
    [destruct (raise_for_status_raises s0) eqn:R0 | | ];
    [ | | destruct (http_get w 1%nat) as [s1 c1 | |] eqn:H1;
          [destruct (raise_for_status_raises s1) eqn:R1 | | ];
          [ | | destruct (http_get w 2%nat) as [s2 c2 | |] eqn:H2;
                [destruct (raise_for_status_raises s2) eqn:R2 | | ] | ] | ].

Ltac in_cases H :=
  cbn [In] in H;
  repeat match type of H with
         | _ \/ _ => destruct H as [H | H]
         end;
  try discriminate; try contradiction.

Ltac use_timeouts :=
  repeat match goal with
    | H : forall b, (b < ?n)%nat -> http_get w b = Timeout |- _ =>
        try (pose proof (H 0%nat ltac:(lia)) as ?T0);
        try (pose proof (H 1%nat ltac:(lia)) as ?T1);
        try (pose proof (H 2%nat ltac:(lia)) as ?T2);
        clear H
    | H : forall b, (S b < ?n)%nat -> http_get w b = Timeout |- _ =>
        try (pose proof (H 0%nat ltac:(lia)) as ?T0);
        try (pose proof (H 1%nat ltac:(lia)) as ?T1);
        clear H
    end.

(** X10.  The log numbers the attempts from 1.  "Timeout on attempt n/3" is
    logged exactly for the attempts that were made and timed out, that is when
    attempts 1 to n all timed out; "API request successful (attempt n)" is
    logged exactly when attempts 1 to n-1 timed out and attempt n answered
    without an error status, and then the fetch yields that answer's
    payload. *)
Theorem attempts_are_logged_by_number (m : Machine) :
  exists evs o,
    fetch_attempts w (seq 0 max_retries) m = (o, record m evs)
    /\ (forall n k,
          In (Log WARNING (TimeoutOnAttempt n k)) evs
          <-> k = 3%nat /\ (1 <= n <= 3)%nat
              /\ forall b, (b < n)%nat -> http_get w b = Timeout)
    /\ (forall n,
          In (Log INFO (ApiRequestSuccessful n)) evs
          <-> (1 <= n <= 3)%nat
              /\ (forall b, (S b < n)%nat -> http_get w b = Timeout)
              /\ exists content,
                  payload_of (http_get w (n - 1)) = Some content
                  /\ o = Done (Some content)).
Proof.
  rewrite fetch_attempts_run.
  fetch_cases; (eexists; eexists; split; [reflexivity |]); split.
  all: try (intros n k; split;
            [ intros Hin; in_cases Hin; injection Hin as <- <-;
              (split; [reflexivity |]); (split; [lia |]);
              intros [| [| [| b]]] Hb; try lia; assumption
            | intros (-> & Hn & Hall);
              destruct n as [| [| [| [| n]]]]; try lia; use_timeouts;
              try congruence; cbn [In]; auto 10 ]).
  all: intros n; split;
    [ intros Hin; in_cases Hin; injection Hin as <-;
      (split; [lia |]);
      (split; [intros [| [| [| b]]] Hb; try lia; assumption |]);
      cbn [Nat.sub]; unfold payload_of;
      repeat match goal with
        | H : http_get w _ = _ |- _ => rewrite H
        | H : raise_for_status_raises _ = _ |- _ => rewrite H
        end; eauto
    | intros (Hn & Hall & content & Hpay & Ho);
      destruct n as [| [| [| [| n]]]]; try lia; use_timeouts;
      try congruence; try discriminate;
      cbn [Nat.sub] in Hpay; unfold payload_of in Hpay;
      repeat match goal with
        | H : http_get w _ = _ |- _ => rewrite H in *
        | H : raise_for_status_raises _ = _ |- _ => rewrite H in *
        end;
      try congruence; try discriminate; cbn [In]; auto 10 ].
Qed.

End AttemptFacts.

(** ** The persistence steps *)

Lemma completes_true (w : World) :
  completes w = true <-> exists df, ending w = EndsCompleted df.
Proof.
  unfold completes. destruct (ending w); split; intros H;
    try discriminate; try reflexivity; eauto; destruct H as [df' H]; discriminate.
Qed.

Lemma completes_false (w : World) (df : list Row.t) :
  completes w = false -> ending w <> EndsCompleted df.
Proof. unfold completes. intros H Hend. rewrite Hend in H. discriminate. Qed.

Lemma ending_not_empty (w : World) (df : list Row.t) :
  ending w = EndsCompleted df -> df <> [].
Proof.
  unfold ending.
  repeat match goal with
         | |- context [match ?x with _ => _ end] => destruct x; try discriminate
         end.
  intros H. injection H as <-. discriminate.
Qed.

(** X11.  A run whose write of the raw store fails exits with code 1 right
    after logging the failure: the raw file was opened, but neither append is
    attempted, the two series are as they were and the clock is not read. *)
Theorem raw_write_failure_stops_the_run (w : World) (m : Machine) :
  raw_write_failed w ->
  exists evs m',
    main w m = (SystemExit 1, m')
    /\ trace m' = trace m ++ evs ++ [Log ERROR FailedToSaveRaw]
    /\ In WriteRaw evs
    /\ ~ In AppendVehicleCount evs /\ ~ In WritePollutionSummary evs
    /\ vehicle_count_store m' = vehicle_count_store m
    /\ pollution_summary_store m' = pollution_summary_store m
    /\ clock_reads m' = clock_reads m.
Proof.
  unfold raw_write_failed. intros Hend.
  destruct (main_failed_eq w m) as (evs & Hrun & Hc & Hs & Hraw).
  { unfold completes. now rewrite Hend. }
  unfold final_log in Hrun. rewrite Hend in Hrun.
  exists evs. eexists. split; [exact Hrun |].
  cbn [record trace vehicle_count_store pollution_summary_store clock_reads].
  repeat split; auto. now apply Hraw.
Qed.

(** X12.  A failure while saving the pollution summary is not fatal: it is
    logged as an error, and the run still ends with "All operations completed
    successfully" and exit code 0, the raw store holding the frame; the
    vehicle count was appended before it, when that append succeeds. *)
Theorem summary_failure_is_not_fatal (w : World) (m : Machine) (df : list Row.t) :
  ending w = EndsCompleted df ->
  summary_write_ok w = false ->
  exists evs o m',
    main w m = (o, m')
    /\ exit_code o = 0
    /\ raw_store m' = Some df
    /\ trace m' = trace m ++ evs
                  ++ [WritePollutionSummary; Log ERROR FailedToSavePollutionSummary;
                      Log INFO AllOperationsCompleted]
    /\ In WriteRaw evs /\ In AppendVehicleCount evs
    /\ (count_append_ok w = true ->
        vehicle_count_store m'
        = Some (appended CountHeader (vehicle_count_store m)
                  (CountRow (now w (clock_reads m)) (nunique_vehicle_id df)))).
Proof.
  intros Hend Hsum.
  destruct (main_completed_eq w m df Hend) as (pre & Hnw & Hpre & Hrun).
  unfold persist_events in Hrun. rewrite Hsum in Hrun.
  eexists. eexists. eexists. split; [exact Hrun |].
  cbn [exit_code raw_store trace vehicle_count_store].
  split; [reflexivity |]. split; [reflexivity |].
  split.
  { instantiate (1 := pre ++ [WriteRaw; Log INFO (SavedRaw (List.length df));
                             AppendVehicleCount;
                             if count_append_ok w
                             then Log INFO (LoggedVehicleCount (nunique_vehicle_id df))
                             else Log ERROR FailedToLogVehicleCount]).
    rewrite <- !app_assoc. reflexivity. }
  split; [rewrite in_app_iff; cbn [In]; auto |].
  split; [rewrite in_app_iff; cbn [In]; auto 10 |].
  intros ->. reflexivity.
Qed.

(** X13.  When both appends succeed, one run adds one row to each series
    and both rows carry the same vehicle count: the number of distinct
    vehicle identities of the frame written to the raw store, which is at
    least 1 and at most the number of its rows.  The two rows are stamped by
    two successive readings of the clock, the count row first. *)
Theorem one_run_adds_one_consistent_row (w : World) (m : Machine) (df : list Row.t) :
  ending w = EndsCompleted df ->
  count_append_ok w = true ->
  summary_write_ok w = true ->
  exists m' s n,
    main w m = (Done tt, m')
    /\ raw_store m' = Some df
    /\ vehicle_count_store m'
       = Some (appended CountHeader (vehicle_count_store m)
                 (CountRow (now w (clock_reads m)) n))
    /\ pollution_summary_store m'
       = Some (appended SummaryHeader (pollution_summary_store m) (SummaryRow s))
    /\ summary_vehicle_count s = n
    /\ summary_timestamp s = now w (S (clock_reads m))
    /\ n = nunique_vehicle_id df
    /\ (1 <= n <= List.length df)%nat
    /\ clock_reads m' = S (S (clock_reads m)).
Proof.
  intros Hend Hcount Hsum.
  destruct (main_completed_eq w m df Hend) as (pre & Hnw & Hpre & Hrun).
  rewrite Hcount, Hsum in Hrun.
  eexists. eexists. exists (nunique_vehicle_id df). split; [exact Hrun |].
  cbn [raw_store vehicle_count_store pollution_summary_store clock_reads].
  repeat split; try reflexivity.
  - apply nunique_vehicle_id_bounds. now apply (ending_not_empty w).
  - apply nunique_vehicle_id_bounds.
Qed.

(** X14.  A completed run opens each of the three stores exactly once, in
    the order raw store, vehicle count, pollution summary, and only after the
    fetch and the validation are over: no request is made once the writing has
    begun, and the number of rows logged as valid is the number saved. *)
Theorem stores_are_opened_once_in_order (w : World) (m : Machine) (df : list Row.t) :
  ending w = EndsCompleted df ->
  exists pre a b c m',
    main w m = (Done tt, m')
    /\ trace m' = trace m ++ pre ++ WriteRaw :: a ++ AppendVehicleCount :: b
                  ++ WritePollutionSummary :: c
    /\ no_writes pre /\ no_writes a /\ no_writes b /\ no_writes c
    /\ http_gets (a ++ b ++ c) = []
    /\ In (Log INFO (ProcessingComplete (List.length df))) pre
    /\ In (Log INFO (SavedRaw (List.length df))) a.
Proof.
  intros Hend.
  destruct (main_completed_eq w m df Hend) as (pre & Hnw & (before & Hpre) & Hrun).
  unfold persist_events in Hrun.
  exists pre, [Log INFO (SavedRaw (List.length df))],
    [if count_append_ok w then Log INFO (LoggedVehicleCount (nunique_vehicle_id df))
     else Log ERROR FailedToLogVehicleCount].
  eexists. eexists. split; [exact Hrun |]. cbn [trace app].
  split; [reflexivity |]. split; [assumption |].
  split; [unfold no_writes; cbn; intuition discriminate |].
  split; [destruct (count_append_ok w); unfold no_writes; cbn; intuition discriminate |].
  split; [destruct (summary_write_ok w); unfold no_writes; cbn; intuition discriminate |].
  split; [destruct (count_append_ok w), (summary_write_ok w); reflexivity |].
  split; [rewrite Hpre, in_app_iff; cbn; auto | now left].
Qed.

(** X15.  The last line a run logs tells how it ended: the run exits with
    code 0 exactly when that line is the INFO line "All operations completed
    successfully", and with code 1 exactly when it is an ERROR line, which
    names the stage that stopped the run. *)
Theorem last_log_line_names_the_ending (w : World) (m : Machine) :
  exists evs o m',
    main w m = (o, m')
    /\ trace m' = trace m ++ evs ++ [final_log w]
    /\ (exit_code o = 0 <-> final_log w = Log INFO AllOperationsCompleted)
    /\ (exit_code o = 1 <-> exists msg, final_log w = Log ERROR msg).
Proof.
  destruct (completes w) eqn:Hc.
  - apply completes_true in Hc as [df Hend].
    destruct (main_completed_eq w m df Hend) as (pre & _ & _ & Hrun).
    unfold persist_events in Hrun.
    eexists. eexists. eexists. split; [exact Hrun |].
    unfold final_log. rewrite Hend. cbn [trace exit_code]. split.
    { instantiate (1 := pre ++ [WriteRaw; Log INFO (SavedRaw (List.length df));
                               AppendVehicleCount;
                               if count_append_ok w
                               then Log INFO (LoggedVehicleCount (nunique_vehicle_id df))
                               else Log ERROR FailedToLogVehicleCount;
                               WritePollutionSummary]
                        ++ (if summary_write_ok w
                            then [Log INFO SavedPollutionSummary;
                                  Log INFO (SummaryIs _)]
                            else [Log ERROR FailedToSavePollutionSummary])).
      rewrite <- !app_assoc. reflexivity. }
    split; [tauto |]. split; [discriminate | intros [msg H]; discriminate].
  - destruct (main_failed_eq w m Hc) as (evs & Hrun & _).
    eexists. eexists. eexists. split; [exact Hrun |].
    cbn [record trace exit_code]. split; [reflexivity |].
    unfold completes in Hc. unfold final_log.
    destruct (ending w); try discriminate;
      (split; [split; discriminate | split; [eauto | reflexivity]]).
Qed.

(** ** Run after run *)

Lemma main_stores (w : World) (m : Machine) :
  (exists t n,
      vehicle_count_store (snd (main w m))
      = if completes w && count_append_ok w
        then Some (appended CountHeader (vehicle_count_store m) (CountRow t n))
        else vehicle_count_store m)
  /\ (exists s,
        pollution_summary_store (snd (main w m))
        = if completes w && summary_write_ok w
          then Some (appended SummaryHeader (pollution_summary_store m) (SummaryRow s))
          else pollution_summary_store m)
  /\ (forall df, ending w = EndsCompleted df -> raw_store (snd (main w m)) = Some df).
Proof.
  destruct (completes w) eqn:Hc.
  - apply completes_true in Hc as [df Hend].
    destruct (main_completed_eq w m df Hend) as (pre & _ & _ & Hrun).
    rewrite Hrun. cbn [snd raw_store vehicle_count_store pollution_summary_store andb].
    split; [| split].
    + destruct (count_append_ok w);
        [exists (now w (clock_reads m)), (nunique_vehicle_id df)
        | exists ""%string, 0%nat]; reflexivity.
    + destruct (summary_write_ok w);
        [eexists | exists (mkSummary "" 0 0 0 0 0)]; reflexivity.
    + intros df' H. congruence.
  - destruct (main_failed_eq w m Hc) as (evs & Hrun & _).
    rewrite Hrun. cbn [snd record raw_store vehicle_count_store pollution_summary_store andb].
    split; [exists ""%string, 0%nat; reflexivity |].
    split; [exists (mkSummary "" 0 0 0 0 0); reflexivity |].
    intros df H. now apply (completes_false w df) in Hc.
Qed.

Lemma appended_series {A : Type} (h line : A) (store : option (list A)) :
  line <> h -> series_ok h store ->
  series_ok h (Some (appended h store line))
  /\ row_count (Some (appended h store line)) = S (row_count store)
  /\ (forall lines, store = Some lines -> appended h store line = lines ++ [line]).
Proof.
  intros Hline Hok. destruct store as [lines |]; cbn [series_ok appended row_count] in *.
  - destruct Hok as (rows & -> & Hn). split; [| split].
    + exists (rows ++ [line]). split; [reflexivity |].
      rewrite in_app_iff. cbn. intuition congruence.
    + rewrite length_app. cbn. lia.
    + intros lines H. now injection H as <-.
  - split; [| split; [reflexivity | discriminate]].
    exists [line]. split; [reflexivity |]. cbn. intuition congruence.
Qed.

Lemma series_step {A : Type} (h line : A) (s s1 sfinal : option (list A))
    (b : bool) (k : nat) :
  series_ok h s -> line <> h ->
  s1 = (if b then Some (appended h s line) else s) ->
  (series_ok h s1 ->
   series_ok h sfinal /\ row_count sfinal = (row_count s1 + k)%nat
   /\ forall lines, s1 = Some lines -> exists more, sfinal = Some (lines ++ more)) ->
  series_ok h sfinal
  /\ row_count sfinal = (row_count s + (if b then S k else k))%nat
  /\ forall lines, s = Some lines -> exists more, sfinal = Some (lines ++ more).
Proof.
  intros Hok Hline -> IH. destruct b; [| exact (IH Hok)].
  destruct (appended_series h line s Hline Hok) as (Hok1 & Hcount & Hprefix).
  destruct (IH Hok1) as (Hokf & Hcf & Hpf).
  split; [assumption |]. split; [lia |].
  intros lines Hs. destruct (Hpf _ eq_refl) as [more Hmore].
  rewrite (Hprefix lines Hs), <- app_assoc in Hmore. eauto.
Qed.

Lemma count_series_runs (ws : list World) :
  forall m,
    series_ok CountHeader (vehicle_count_store m) ->
    series_ok CountHeader (vehicle_count_store (runs ws m))
    /\ row_count (vehicle_count_store (runs ws m))
       = (row_count (vehicle_count_store m)
          + List.length (filter (fun w => completes w && count_append_ok w) ws))%nat
    /\ forall lines, vehicle_count_store m = Some lines ->
         exists more, vehicle_count_store (runs ws m) = Some (lines ++ more).
Proof.
  induction ws as [| w ws IH]; intros m Hok.
  - cbn. split; [assumption |]. split; [lia |].
    intros lines ->. exists []. now rewrite app_nil_r.
  - change (runs (w :: ws) m) with (runs ws (snd (main w m))).
    destruct (main_stores w m) as ((t & n & Hstep) & _ & _).
    cbn [filter].
    replace (List.length (if completes w && count_append_ok w
                          then w :: filter (fun w => completes w && count_append_ok w) ws
                          else filter (fun w => completes w && count_append_ok w) ws))
      with (if completes w && count_append_ok w
            then S (List.length (filter (fun w => completes w && count_append_ok w) ws))
            else List.length (filter (fun w => completes w && count_append_ok w) ws))
      by (destruct (completes w && count_append_ok w); reflexivity).
    eapply series_step; [exact Hok | | exact Hstep | apply IH]. discriminate.
Qed.

Lemma summary_series_runs (ws : list World) :
  forall m,
    series_ok SummaryHeader (pollution_summary_store m) ->
    series_ok SummaryHeader (pollution_summary_store (runs ws m))
    /\ row_count (pollution_summary_store (runs ws m))
       = (row_count (pollution_summary_store m)
          + List.length (filter (fun w => completes w && summary_write_ok w) ws))%nat
    /\ forall lines, pollution_summary_store m = Some lines ->
         exists more, pollution_summary_store (runs ws m) = Some (lines ++ more).
Proof.
  induction ws as [| w ws IH]; intros m Hok.
  - cbn. split; [assumption |]. split; [lia |].
    intros lines ->. exists []. now rewrite app_nil_r.
  - change (runs (w :: ws) m) with (runs ws (snd (main w m))).
    destruct (main_stores w m) as (_ & (s & Hstep) & _).
    cbn [filter].
    replace (List.length (if completes w && summary_write_ok w
                          then w :: filter (fun w => completes w && summary_write_ok w) ws
                          else filter (fun w => completes w && summary_write_ok w) ws))
      with (if completes w && summary_write_ok w
            then S (List.length (filter (fun w => completes w && summary_write_ok w) ws))
            else List.length (filter (fun w => completes w && summary_write_ok w) ws))
      by (destruct (completes w && summary_write_ok w); reflexivity).
    eapply series_step; [exact Hok | | exact Hstep | apply IH]. discriminate.
Qed.

(** X16.  Over any number of runs, whatever way each one ends, the two
    series files only grow: each keeps its header on the first line and
    nowhere else, the lines it had stay a prefix of it, and it gains one row
    per run that reaches its append and succeeds in it.  The raw store is
    overwritten instead: after a run that completes it holds the frame of
    that run alone. *)
Theorem series_are_append_only (ws : list World) (m : Machine) :
  series_ok CountHeader (vehicle_count_store m) ->
  series_ok SummaryHeader (pollution_summary_store m) ->
  (series_ok CountHeader (vehicle_count_store (runs ws m))
   /\ row_count (vehicle_count_store (runs ws m))
      = (row_count (vehicle_count_store m)
         + List.length (filter (fun w => completes w && count_append_ok w) ws))%nat
   /\ forall lines, vehicle_count_store m = Some lines ->
        exists more, vehicle_count_store (runs ws m) = Some (lines ++ more))
  /\ (series_ok SummaryHeader (pollution_summary_store (runs ws m))
      /\ row_count (pollution_summary_store (runs ws m))
         = (row_count (pollution_summary_store m)
            + List.length (filter (fun w => completes w && summary_write_ok w) ws))%nat
      /\ forall lines, pollution_summary_store m = Some lines ->
           exists more, pollution_summary_store (runs ws m) = Some (lines ++ more))
  /\ (forall before w df,
        ws = before ++ [w] -> ending w = EndsCompleted df ->
        raw_store (runs ws m) = Some df).
Proof.
  intros Hc Hs. split; [now apply count_series_runs |].
  split; [now apply summary_series_runs |].
  intros before w df -> Hend. unfold runs. rewrite fold_left_app. cbn [fold_left].
  now apply main_stores.
Qed.

(** ** Validation, entity by entity *)

Lemma process_loop_app (off : Z -> Z) (l1 l2 : list Feed.FeedEntity) :
  forall rows skipped,
    process_loop off (l1 ++ l2) rows skipped =
    match process_loop off l1 rows skipped with
    | inl e => inl e
    | inr (rows', skipped') => process_loop off l2 rows' skipped'
    end.
Proof.
  induction l1 as [| entity rest IH]; intros rows skipped; [reflexivity |].
  cbn [app process_loop]. destruct (process_entity off entity); auto.
Qed.

(** X17.  Validation treats each entity on its own: the loop only adds to
    its two accumulators, and the result for a feed made of two parts is the
    rows of the first part followed by those of the second, with the two
    counts added.  Only the removal of duplicates, after the loop, relates one
    reading to another. *)
Theorem validation_of_a_feed_in_two_parts (off : Z -> Z)
    (l1 l2 : list Feed.FeedEntity) (rows1 rows2 rows : list Row.t)
    (skipped1 skipped2 skipped : nat) :
  process_loop off l1 [] 0 = inr (rows1, skipped1) ->
  process_loop off l2 [] 0 = inr (rows2, skipped2) ->
  process_loop off (l1 ++ l2) [] 0 = inr (rows1 ++ rows2, (skipped1 + skipped2)%nat)
  /\ process_loop off l1 rows skipped = inr (rows ++ rows1, (skipped + skipped1)%nat)
  /\ (List.length rows1 + skipped1 = List.length l1)%nat.
Proof.
  intros H1 H2.
  apply process_loop_returns in H1 as (Hn1 & -> & ->).
  apply process_loop_returns in H2 as (Hn2 & -> & ->).
  split; [| split].
  - rewrite process_loop_app, !process_loop_spec, Hn1. cbn [app Nat.add].
    rewrite process_loop_spec, Hn2. reflexivity.
  - rewrite process_loop_spec, Hn1. reflexivity.
  - now apply kept_plus_dropped.
Qed.

Lemma validation_of_a_feed_in_two_parts_witness :
  process_loop IST ([reading_out_of_area; valid_reading] ++ [precise_reading]) [] 0
  = inr ([row_of valid_reading (sample_position (Some 10.0%float))
            (DateTime.mkLocal 1700019800 19800)]
         ++ [row_of precise_reading (sample_position (Some 10.0078125%float))
               (DateTime.mkLocal 1700019800 19800)],
         (1 + 0)%nat).
Proof.
  apply (validation_of_a_feed_in_two_parts IST
           [reading_out_of_area; valid_reading] [precise_reading] _ _ [] _ _ 0%nat);
    vm_compute; reflexivity.
Defined.

(** ** What the raw store holds *)

(** X18.  After a completed run the raw store holds the frame of that run
    and nothing else: the rows kept from the entities with a vehicle of the
    decoded feed, in feed order, the later rows of a (vehicle, timestamp) pair
    removed.  No two of its rows share vehicle and timestamp, it is not empty,
    and it has at most as many rows as the feed has entities with a vehicle,
    less those counted as skipped. *)
Theorem raw_store_holds_the_deduplicated_feed (w : World) (m : Machine)
    (df : list Row.t) :
  ending w = EndsCompleted df ->
  raw_store (snd (main w m)) = Some df
  /\ df <> []
  /\ NoDup (map Row.key df)
  /\ exists content feed,
      fetch_result w = Payload content
      /\ ParseFromString w content = Some feed
      /\ df = drop_duplicates (kept (utcoffset w) (filter Feed.HasField_vehicle feed))
      /\ (List.length df + dropped (utcoffset w) (filter Feed.HasField_vehicle feed)
          <= List.length (filter Feed.HasField_vehicle feed))%nat
      /\ (List.length (filter Feed.HasField_vehicle feed) <= List.length feed)%nat.
Proof.
  intros Hend.
  split; [now apply main_stores |].
  split; [now apply (ending_not_empty w) |].
  apply ending_completed in Hend
    as (_ & content & feed & rows & skipped & Hfetch & Hparse & Hloop & ->).
  split; [apply drop_duplicates_from_NoDup |].
  exists content, feed.
  apply process_loop_returns in Hloop as (Hnone & -> & ->).
  repeat split; auto.
  - pose proof (kept_plus_dropped _ _ Hnone) as Hsum.
    pose proof (drop_duplicates_from_length
                  (kept (utcoffset w) (filter Feed.HasField_vehicle feed)) []) as Hlen.
    unfold drop_duplicates. lia.
  - apply filter_length_le.
Qed.

Lemma raw_store_holds_the_deduplicated_feed_witness :
  raw_store (snd (main (sample_world always_ok [valid_reading; repeated_reading]
                          true true true) empty_machine))
  = Some [row_of valid_reading (sample_position (Some 10.0%float))
            (DateTime.mkLocal 1700019800 19800)].
Proof.
  apply (raw_store_holds_the_deduplicated_feed
           (sample_world always_ok [valid_reading; repeated_reading] true true true)).
  vm_compute. reflexivity.
Defined.

(** ** Sample runs *)

Lemma deduplication_merges_same_vehicle_same_second_witness :
  drop_duplicates
    [row_of valid_reading (sample_position (Some 10.0%float))
       (DateTime.mkLocal 1700019800 19800);
     row_of repeated_reading (sample_position (Some 10.0078125%float))
       (DateTime.mkLocal 1700019800 19800)]
  = [row_of valid_reading (sample_position (Some 10.0%float))
       (DateTime.mkLocal 1700019800 19800)].
Proof.
  refine (proj1 (proj2 (deduplication_merges_same_vehicle_same_second IST
                          valid_reading repeated_reading _ _
                          1700000000%N 1700000000%N _ _ _ _)) _);
    try (vm_compute; reflexivity).
  split; reflexivity.
Defined.


Lemma raw_write_failure_stops_the_run_witness :
  exists m',
    main (sample_world always_ok [valid_reading] false true true) empty_machine
    = (SystemExit 1, m')
    /\ vehicle_count_store m' = None /\ pollution_summary_store m' = None.
Proof.
  destruct (raw_write_failure_stops_the_run
              (sample_world always_ok [valid_reading] false true true) empty_machine)
    as (evs & m' & Hrun & _ & _ & _ & _ & Hc & Hs & _).
  - vm_compute. reflexivity.
  - exists m'. auto.
Defined.

Lemma summary_failure_is_not_fatal_witness :
  exists o m',
    main (sample_world always_ok [valid_reading] true true false) empty_machine = (o, m')
    /\ exit_code o = 0.
Proof.
  destruct (summary_failure_is_not_fatal
              (sample_world always_ok [valid_reading] true true false) empty_machine
              [row_of valid_reading (sample_position (Some 10.0%float))
                 (DateTime.mkLocal 1700019800 19800)])
    as (evs & o & m' & Hrun & Hcode & _).
  - vm_compute. reflexivity.
  - reflexivity.
  - exists o, m'. auto.
Defined.

Lemma one_run_adds_one_consistent_row_witness :
  exists m' s,
    main (sample_world always_ok [valid_reading; repeated_reading] true true true)
      empty_machine = (Done tt, m')
    /\ vehicle_count_store m'
       = Some [CountHeader; CountRow "2024-01-01T00:00:00" 1]
    /\ pollution_summary_store m' = Some [SummaryHeader; SummaryRow s]
    /\ summary_vehicle_count s = 1%nat.
Proof.
  destruct (one_run_adds_one_consistent_row
              (sample_world always_ok [valid_reading; repeated_reading] true true true)
              empty_machine
              [row_of valid_reading (sample_position (Some 10.0%float))
                 (DateTime.mkLocal 1700019800 19800)])
    as (m' & s & n & Hrun & _ & Hc & Hs & Hsn & _ & Hn & _).
  - vm_compute. reflexivity.
  - reflexivity.
  - reflexivity.
  - exists m', s. split; [exact Hrun |]. rewrite Hc, Hs, Hsn, Hn. auto.
Defined.

Lemma stores_are_opened_once_in_order_witness :
  exists pre a b c m',
    main (sample_world always_ok [valid_reading] true true true) empty_machine
    = (Done tt, m')
    /\ trace m' = pre ++ WriteRaw :: a ++ AppendVehicleCount :: b
                  ++ WritePollutionSummary :: c.
Proof.
  destruct (stores_are_opened_once_in_order
              (sample_world always_ok [valid_reading] true true true) empty_machine
              [row_of valid_reading (sample_position (Some 10.0%float))
                 (DateTime.mkLocal 1700019800 19800)])
    as (pre & a & b & c & m' & Hrun & Htrace & _).
  - vm_compute. reflexivity.
  - exists pre, a, b, c, m'. auto.
Defined.

Lemma series_are_append_only_witness :
  row_count (vehicle_count_store
               (runs [sample_world always_ok [valid_reading] true true true;
                      sample_world always_ok [reading_out_of_area] true true true;
                      sample_world always_ok [valid_reading] true false true]
                  empty_machine))
  = 1%nat.
Proof.
  destruct (series_are_append_only
              [sample_world always_ok [valid_reading] true true true;
               sample_world always_ok [reading_out_of_area] true true true;
               sample_world always_ok [valid_reading] true false true]
              empty_machine)
    as ((_ & Hrows & _) & _).
  - exact I.
  - exact I.
  - exact Hrows.
Defined.
